(** * no-dynamic-class-names: the rule's classifier, prop collector and
      attribute gate, embedded from [lib/rules/no-dynamic-class-names.ts].

    The rule walks the expression bound to a watched attribute and calls
    [context.report] for every sub-expression it cannot accept as a static
    class name.  The walk is five mutually recursive closures inside
    [create]; they are embedded here as one mutual [Fixpoint] over the
    ESTree fragment the rule inspects, threading the reporting sink as an
    explicit state. *)

From Stdlib Require Import List String Bool Arith Lia Sorted.
Import ListNotations.
Open Scope string_scope.
Open Scope list_scope.
Open Scope nat_scope.

(* ================================================================== *)
(** ** Source locations *)

(** [node.loc] of an ESTree node: a start and an end position, each a
    line and a column. *)
Record Position : Type := { line : nat; column : nat }.

Record SourceLocation : Type := { loc_start : Position; loc_end : Position }.

Definition pos_leb (p q : Position) : bool :=
  (line p <? line q) || ((line p =? line q) && (column p <=? column q)).

Definition pos_ltb (p q : Position) : bool :=
  (line p <? line q) || ((line p =? line q) && (column p <? column q)).

Definition pos_eqb (p q : Position) : bool :=
  (line p =? line q) && (column p =? column q).

Definition loc_eqb (a b : SourceLocation) : bool :=
  pos_eqb (loc_start a) (loc_start b) && pos_eqb (loc_end a) (loc_end b).

(** A location that spans at least one character. *)
Definition loc_nonempty (l : SourceLocation) : bool :=
  pos_ltb (loc_start l) (loc_end l).

(** [inner] lies within [outer]. *)
Definition loc_inside (inner outer : SourceLocation) : bool :=
  pos_leb (loc_start outer) (loc_start inner)
  && pos_leb (loc_end inner) (loc_end outer).

(** [a] ends before [b] starts: [a] is to the left of [b] in the text. *)
Definition loc_before (a b : SourceLocation) : bool :=
  pos_leb (loc_end a) (loc_start b).

(* ================================================================== *)
(** ** The ESTree fragment the rule dispatches on *)

(** [Literal.value]: the rule only asks [typeof value === "string"]. *)
Inductive LiteralValue : Type :=
| StringValue (s : string)
| BooleanValue (b : bool)
| NullValue
| NumberValue (raw : string)
| OtherValue (raw : string).

(** [Expression], [SpreadElement], [Property] (an entry of
    [ObjectExpression.properties], which may also be a spread) and the
    entries of [ArrayExpression.elements] (an expression, a spread, or
    [null] for an elision).  Every expression type the rule does not name
    (calls, binary expressions, template literals, ...) is
    [OtherExpression]: the rule never looks inside one. *)
Inductive Expression : Type :=
| Identifier (loc : SourceLocation) (name : string)
| Literal (loc : SourceLocation) (value : LiteralValue)
| MemberExpression (loc : SourceLocation) (object property : Expression)
                   (computed : bool)
| ObjectExpression (loc : SourceLocation) (properties : list ObjectMember)
| ArrayExpression (loc : SourceLocation) (elements : list ArrayElement)
| ConditionalExpression (loc : SourceLocation)
                        (test consequent alternate : Expression)
| OtherExpression (loc : SourceLocation) (type : string)
with SpreadElement : Type :=
| Spread (loc : SourceLocation) (argument : Expression)
with ObjectMember : Type :=
| Property (loc : SourceLocation) (key value : Expression)
           (computed method shorthand : bool)
| SpreadProperty (spread : SpreadElement)
with ArrayElement : Type :=
| Elision
| ElementExpression (element : Expression)
| ElementSpread (spread : SpreadElement).

Definition expression_loc (e : Expression) : SourceLocation :=
  match e with
  | Identifier l _ | Literal l _ | MemberExpression l _ _ _
  | ObjectExpression l _ | ArrayExpression l _
  | ConditionalExpression l _ _ _ | OtherExpression l _ => l
  end.

Definition spread_loc (s : SpreadElement) : SourceLocation :=
  match s with Spread l _ => l end.

Definition member_loc (p : ObjectMember) : SourceLocation :=
  match p with
  | Property l _ _ _ _ _ => l
  | SpreadProperty s => spread_loc s
  end.

(** The locations of the entries of an array that have one (an elision is
    [null] and has none). *)
Definition element_locs (el : ArrayElement) : list SourceLocation :=
  match el with
  | Elision => []
  | ElementExpression e => [expression_loc e]
  | ElementSpread s => [spread_loc s]
  end.

(* ================================================================== *)
(** ** The reporting sink *)

(** What [report] is called with: an expression, or a [Property]. *)
Inductive Node : Type :=
| ExpressionNode (e : Expression)
| PropertyNode (p : ObjectMember).

Definition node_loc (n : Node) : SourceLocation :=
  match n with
  | ExpressionNode e => expression_loc e
  | PropertyNode p => member_loc p
  end.

(** The descriptor passed to [context.report]. *)
Record Report : Type :=
  { node : Node; loc : SourceLocation; messageId : string }.

(** [context.report] appends to the list of problems of the file. *)
Definition Sink : Type := list Report.

(** [function report(node)], lines 120-126. *)
Definition report (n : Node) (sink : Sink) : Sink :=
  sink ++ [ {| node := n; loc := node_loc n; messageId := "dynamic" |} ].

(** [Array.prototype.includes] on an array of strings. *)
Definition includes (list : list string) (item : string) : bool :=
  existsb (String.eqb item) list.

(* ================================================================== *)
(** ** The classifier *)

Definition isIdentifier (e : Expression) : bool :=
  match e with Identifier _ _ => true | _ => false end.

(** Modelled from the spec: [utils.isStringLiteral] lives in
    [lib/utils/vue], which is not part of the sources at hand; the spec
    calls the keys it accepts "a string-literal key". *)
Definition isStringLiteral (e : Expression) : bool :=
  match e with Literal _ (StringValue _) => true | _ => false end.

Section Classifier.

(** [const allowConditional = context.options[0]?.allowConditional || false],
    captured by the closures below. *)
Variable allowConditional : bool.

(** Lines 128-248.  [reportDynamicInProperty] and [reportDynamicInElement]
    are the bodies of the [for] loops of [reportDynamicInObject] and
    [reportDynamicInArray]; the loops themselves are the [fold_left]s.
    The [expression === null] test of line 206 never fires at a call
    site: a property value and a conditional branch are never [null], an
    elided array element is skipped at line 183, and [reportDynamic]
    returns on an absent expression before it calls. *)
Fixpoint reportDynamicInExpression (expression : Expression)
         (allowedProps : list string) (sink : Sink) {struct expression}
  : Sink :=
  match expression with
  (* 208-213 *)
  | Literal _ (StringValue _) => sink
  (* 215-220 *)
  | Identifier _ name =>
      if includes allowedProps name then sink
      else report (ExpressionNode expression) sink
  (* 222-230 *)
  | MemberExpression _ (Identifier _ oname) (Identifier _ pname) _ =>
      if includes ["$props"; "$attrs"] oname && includes allowedProps pname
      then sink
      else report (ExpressionNode expression) sink
  (* 232-235: reportDynamicInObject *)
  | ObjectExpression _ properties =>
      fold_left (fun s property =>
                   reportDynamicInProperty property allowedProps s)
                properties sink
  (* 237-240: reportDynamicInArray *)
  | ArrayExpression _ elements =>
      fold_left (fun s element =>
                   reportDynamicInElement element allowedProps s)
                elements sink
  (* 242-245: reportDynamicInConditional, alternate first (198-199) *)
  | ConditionalExpression _ _ consequent alternate =>
      if allowConditional
      then reportDynamicInExpression consequent allowedProps
             (reportDynamicInExpression alternate allowedProps sink)
      else report (ExpressionNode expression) sink
  (* 247 *)
  | _ => report (ExpressionNode expression) sink
  end

(* 128-141 *)
with reportDynamicInSpread (spread : SpreadElement)
       (allowedProps : list string) (sink : Sink) {struct spread} : Sink :=
  match spread with
  | Spread _ argument =>
      match argument with
      | ArrayExpression _ elements =>
          fold_left (fun s element =>
                       reportDynamicInElement element allowedProps s)
                    elements sink
      | ObjectExpression _ properties =>
          fold_left (fun s property =>
                       reportDynamicInProperty property allowedProps s)
                    properties sink
      | _ => report (ExpressionNode argument) sink
      end
  end

(* 148-174, one iteration *)
with reportDynamicInProperty (property : ObjectMember)
       (allowedProps : list string) (sink : Sink) {struct property} : Sink :=
  match property with
  | SpreadProperty spread => reportDynamicInSpread spread allowedProps sink
  | Property _ key value computed method shorthand =>
      if shorthand then sink
      else if computed || method then report (PropertyNode property) sink
      else if isIdentifier key then sink
      else if isStringLiteral key then sink
      else if isIdentifier value then sink
      else reportDynamicInExpression value allowedProps sink
  end

(* 183-190, one iteration *)
with reportDynamicInElement (element : ArrayElement)
       (allowedProps : list string) (sink : Sink) {struct element} : Sink :=
  match element with
  | Elision => sink
  | ElementSpread spread => reportDynamicInSpread spread allowedProps sink
  | ElementExpression e => reportDynamicInExpression e allowedProps sink
  end.

(** [reportDynamicInObject], lines 143-176, on [object.properties]. *)
Definition reportDynamicInObject (properties : list ObjectMember)
           (allowedProps : list string) (sink : Sink) : Sink :=
  fold_left (fun s property =>
               reportDynamicInProperty property allowedProps s)
            properties sink.

(** [reportDynamicInArray], lines 178-192, on [array.elements]. *)
Definition reportDynamicInArray (elements : list ArrayElement)
           (allowedProps : list string) (sink : Sink) : Sink :=
  fold_left (fun s element =>
               reportDynamicInElement element allowedProps s)
            elements sink.

(** [reportDynamicInConditional], lines 194-200. *)
Definition reportDynamicInConditional (consequent alternate : Expression)
           (allowedProps : list string) (sink : Sink) : Sink :=
  reportDynamicInExpression consequent allowedProps
    (reportDynamicInExpression alternate allowedProps sink).

End Classifier.

(* ================================================================== *)
(** ** Template attributes and the attribute gate *)

(** [VDirectiveKey.argument]: a static [VIdentifier], or a dynamic
    [VExpressionContainer] ([:[expr]="..."]). *)
Inductive VDirectiveArgument : Type :=
| VIdentifierArgument (name : string)
| VExpressionContainerArgument (expression : option Expression).

(** [VDirectiveKey]: [directive_name] is [key.name.name]. *)
Record VDirectiveKey : Type :=
  { directive_name : string; argument : option VDirectiveArgument }.

(** [VAttribute | VDirective].  A plain attribute ([directive: false]) has
    a [VIdentifier] key and a [VLiteral] value or none; a directive has a
    [VExpressionContainer] value or none, whose [expression] may be
    [null].  The container's non-ESTree expressions (filter sequences and
    the like) are [OtherExpression]s here, as the rule casts them to
    [Expression] and recognises none of their types. *)
Inductive Attribute : Type :=
| VAttribute (key_name : string) (value : option string)
| VDirective (key : VDirectiveKey) (value : option (option Expression)).

(** [getName], lines 16-29.  [x || null] turns the empty string into
    [null] as well. *)
Definition getName (attribute : Attribute) : option string :=
  match attribute with
  | VAttribute key_name _ => Some key_name
  | VDirective key _ =>
      if (directive_name key =? "bind")%string then
        match argument key with
        | Some (VIdentifierArgument name) =>
            if (name =? "")%string then None else Some name
        | _ => None
        end
      else None
  end.

(** [reportDynamic], lines 250-270. *)
Definition reportDynamic (allowConditional : bool) (attribute : Attribute)
           (allowedProps : list string) (sink : Sink) : Sink :=
  match attribute with
  | VAttribute _ None => sink
  | VAttribute _ (Some _) => sink
  | VDirective _ None => sink
  | VDirective _ (Some None) => sink
  | VDirective _ (Some (Some expression)) =>
      reportDynamicInExpression allowConditional expression allowedProps sink
  end.

(* ================================================================== *)
(** ** Options, the prop collector and the listener *)

(** [context.options[0]]: every option may be left out. *)
Record Options : Type :=
  { classAttrNames : option (list string);
    allowConditional : option bool;
    allowProps : option bool }.

(** What the rule reads of its [RuleContext]:  [options], and whether
    [parserServices.defineTemplateBodyVisitor] exists. *)
Record RuleContext : Type :=
  { options : list Options; defineTemplateBodyVisitor : bool }.

(** [context.options[0]?.classAttrNames || []] *)
Definition option_classAttrNames (context : RuleContext) : list string :=
  match hd_error (options context) with
  | Some o => match classAttrNames o with Some l => l | None => [] end
  | None => []
  end.

(** [context.options[0]?.allowConditional || false] *)
Definition option_allowConditional (context : RuleContext) : bool :=
  match hd_error (options context) with
  | Some o => match allowConditional o with Some b => b | None => false end
  | None => false
  end.

(** [context.options[0]?.allowProps || false] *)
Definition option_allowProps (context : RuleContext) : bool :=
  match hd_error (options context) with
  | Some o => match allowProps o with Some b => b | None => false end
  | None => false
  end.

(** [names], lines 115 and 118. *)
Definition names (context : RuleContext) : list string :=
  let names := option_classAttrNames context in
  if negb (includes names "class") then names ++ ["class"] else names.

(** A declared prop: [propName] is [null] when the name is not a string
    known statically. *)
Record ComponentProp : Type := { propName : option string }.

(** [props.map((p) => p.propName).filter(isString)] *)
Definition stringPropNames (props : list ComponentProp) : list string :=
  flat_map (fun name => match name with Some s => [s] | None => [] end)
           (map propName props).

(** The mutable state the listener's closures share: the [propNames]
    array allocated by [withProps], and the problems reported so far. *)
Record Store : Type := { propNames : list string; problems : Sink }.

Definition emptyStore : Store := {| propNames := []; problems := [] |}.

(** The visitor callbacks the rule can install.  The [VAttribute]
    callback may throw (compiling a watched pattern can fail): it
    answers [None] then, and the store it would have returned
    otherwise. *)
Record RuleListener : Type :=
  { onDefinePropsEnter : option (list ComponentProp -> Store -> Store);
    onVueObjectEnter : option (list ComponentProp -> Store -> Store);
    onVAttribute : option (Attribute -> Store -> option Store) }.

(** [{}] *)
Definition emptyListener : RuleListener :=
  {| onDefinePropsEnter := None; onVueObjectEnter := None;
     onVAttribute := None |}.

Definition bothHandlers {A : Type} (f g : option (A -> Store -> Store))
  : option (A -> Store -> Store) :=
  match f, g with
  | Some f, Some g => Some (fun a st => g a (f a st))
  | Some f, None => Some f
  | None, g => g
  end.

Definition bothFallible {A : Type} (f g : option (A -> Store -> option Store))
  : option (A -> Store -> option Store) :=
  match f, g with
  | Some f, Some g =>
      Some (fun a st => match f a st with
                        | Some st' => g a st'
                        | None => None
                        end)
  | Some f, None => Some f
  | None, g => g
  end.

(** Modelled from the spec: [utils.compositingVisitors] is in
    [lib/utils/vue], not among the sources; "multiple authoring-style
    visitors merged into one": every callback of every visitor stays
    installed, called in the order the visitors are given. *)
Definition compositingVisitors (a b c : RuleListener) : RuleListener :=
  {| onDefinePropsEnter :=
       bothHandlers (bothHandlers (onDefinePropsEnter a)
                                  (onDefinePropsEnter b))
                    (onDefinePropsEnter c);
     onVueObjectEnter :=
       bothHandlers (bothHandlers (onVueObjectEnter a) (onVueObjectEnter b))
                    (onVueObjectEnter c);
     onVAttribute :=
       bothFallible (bothFallible (onVAttribute a) (onVAttribute b))
                    (onVAttribute c) |}.

(** Modelled from the spec: [utils.defineScriptSetupVisitor] (not among
    the sources) installs the callback for "declarative properties
    declared (yielding a list of property names)". *)
Definition defineScriptSetupVisitor
           (onDefinePropsEnter : list ComponentProp -> Store -> Store)
  : RuleListener :=
  {| onDefinePropsEnter := Some onDefinePropsEnter;
     onVueObjectEnter := None; onVAttribute := None |}.

(** Modelled from the spec: [utils.defineVueVisitor] (not among the
    sources) installs the callback for "options-object entered"; the
    props [utils.getComponentPropsFromOptions] extracts from that object
    are the callback's argument here. *)
Definition defineVueVisitor
           (onVueObjectEnter : list ComponentProp -> Store -> Store)
  : RuleListener :=
  {| onDefinePropsEnter := None;
     onVueObjectEnter := Some onVueObjectEnter; onVAttribute := None |}.

(** [context.parserServices.defineTemplateBodyVisitor({ VAttribute })] *)
Definition templateBodyVisitor
           (VAttributeHandler : Attribute -> Store -> option Store)
  : RuleListener :=
  {| onDefinePropsEnter := None; onVueObjectEnter := None;
     onVAttribute := Some VAttributeHandler |}.

(** [propNames.push(...props.map((p) => p.propName).filter(isString))] *)
Definition pushPropNames (props : list ComponentProp) (st : Store) : Store :=
  {| propNames := propNames st ++ stringPropNames props;
     problems := problems st |}.

(** [withProps], lines 50-76.  It allocates [propNames] and hands the
    array itself to [bodyVisitor]: the body visitor reads the array when
    it is called, so it is given the accessor of the store's field, and
    sees every later [push]. *)
Definition withProps (context : RuleContext)
           (bodyVisitor : (Store -> list string) -> RuleListener)
           (st : Store) : RuleListener * Store :=
  let allowProps := option_allowProps context in
  let st := {| propNames := ["class"]; problems := problems st |} in
  if Bool.eqb allowProps false then (bodyVisitor propNames, st)
  else
    (compositingVisitors
       (defineScriptSetupVisitor pushPropNames)
       (defineVueVisitor pushPropNames)
       (bodyVisitor propNames),
     st).

Section Rule.

(** [regexpUtils.isRegExp] and [regexpUtils.toRegExp], from
    [lib/utils/regexp], which is not among the sources.  A compiled
    expression is given by what its [test] answers; [toRegExp] answers
    [None] when compiling the pattern throws. *)
Variable isRegExp : string -> bool.
Variable toRegExp : string -> option (string -> bool).

(** [patterns.map((reg) => regexpUtils.toRegExp(reg))]: every pattern is
    compiled, in order, before any is tested; one that throws aborts the
    whole. *)
Fixpoint compileAll (patterns : list string)
  : option (list (string -> bool)) :=
  match patterns with
  | [] => Some []
  | reg :: rest =>
      match toRegExp reg with
      | None => None
      | Some regexp =>
          match compileAll rest with
          | None => None
          | Some regexps => Some (regexp :: regexps)
          end
      end
  end.

(** [isSatisfyList], lines 31-48: [None] when it throws. *)
Definition isSatisfyList (list : list string) (item : string) : option bool :=
  if includes list item then Some true
  else match compileAll (filter isRegExp list) with
       | None => None
       | Some regexpItems =>
           Some (existsb (fun regexp => regexp item) regexpItems)
       end.

(** The [VAttribute(node)] callback, lines 274-282: [None] when
    [isSatisfyList] throws. *)
Definition VAttributeHandler (context : RuleContext)
           (props : Store -> list string) (node : Attribute) (st : Store)
  : option Store :=
  match getName node with
  | None => Some st
  | Some name =>
      match isSatisfyList (names context) name with
      | None => None
      | Some satisfies =>
          if negb satisfies then Some st
          else Some {| propNames := propNames st;
                       problems :=
                         reportDynamic (option_allowConditional context)
                                       node (props st) (problems st) |}
      end
  end.

(** [create], lines 112-285. *)
Definition create (context : RuleContext) (st : Store)
  : RuleListener * Store :=
  if negb (defineTemplateBodyVisitor context) then (emptyListener, st)
  else withProps context
         (fun props => templateBodyVisitor (VAttributeHandler context props))
         st.

(** What the host tells the listener while it traverses one file. *)
Inductive Event : Type :=
| DefinePropsEnter (props : list ComponentProp)
| VueObjectEnter (props : list ComponentProp)
| VAttributeEnter (node : Attribute).

(** Calling the callback installed for an event: [None] when it
    throws. *)
Definition dispatch (listener : RuleListener) (st : Store) (event : Event)
  : option Store :=
  match event with
  | DefinePropsEnter props =>
      match onDefinePropsEnter listener with
      | Some h => Some (h props st) | None => Some st end
  | VueObjectEnter props =>
      match onVueObjectEnter listener with
      | Some h => Some (h props st) | None => Some st end
  | VAttributeEnter node =>
      match onVAttribute listener with
      | Some h => h node st | None => Some st end
  end.

(** How a pass stands: it has handled every event so far, or a callback
    threw and the pass was abandoned, with the store as it was when the
    exception was raised. *)
Inductive Outcome : Type :=
| Completed (st : Store)
| Threw (st : Store).

Definition storeOf (outcome : Outcome) : Store :=
  match outcome with Completed st | Threw st => st end.

(** Handing one more event to the listener; nothing is handed over once
    a callback has thrown. *)
Definition deliver (listener : RuleListener) (outcome : Outcome)
           (event : Event) : Outcome :=
  match outcome with
  | Completed st =>
      match dispatch listener st event with
      | Some st' => Completed st'
      | None => Threw st
      end
  | Threw st => Threw st
  end.

(** One lint pass: create the listener, then feed it the events. *)
Definition lint (context : RuleContext) (events : list Event) : Outcome :=
  let (listener, st) := create context emptyStore in
  fold_left (deliver listener) events (Completed st).

End Rule.

(* ================================================================== *)
(** ** Vocabulary of the properties *)

(** The descriptor [report] builds for a node. *)
Definition reportOf (n : Node) : Report :=
  {| node := n; loc := node_loc n; messageId := "dynamic" |}.

(** The reports one expression adds to an empty sink. *)
Definition classify (allowConditional : bool) (allowedProps : list string)
           (expression : Expression) : list Report :=
  reportDynamicInExpression allowConditional expression allowedProps [].

(** The reports located at [l]. *)
Definition reportsAt (l : SourceLocation) (reports : list Report)
  : list Report :=
  filter (fun r => loc_eqb (loc r) l) reports.

(** [a] is reported at a place to the left of [b]'s. *)
Definition reportBefore (a b : Report) : Prop :=
  loc_before (loc a) (loc b) = true.

(** Number of nodes of a tree. *)
Fixpoint expression_size (e : Expression) : nat :=
  match e with
  | Identifier _ _ | Literal _ _ | OtherExpression _ _ => 1
  | MemberExpression _ o p _ => 1 + expression_size o + expression_size p
  | ObjectExpression _ ps => 1 + list_sum (map member_size ps)
  | ArrayExpression _ es => 1 + list_sum (map element_size es)
  | ConditionalExpression _ t c a =>
      1 + expression_size t + expression_size c + expression_size a
  end
with spread_size (s : SpreadElement) : nat :=
  match s with Spread _ a => 1 + expression_size a end
with member_size (p : ObjectMember) : nat :=
  match p with
  | Property _ k v _ _ _ => 1 + expression_size k + expression_size v
  | SpreadProperty s => spread_size s
  end
with element_size (x : ArrayElement) : nat :=
  match x with
  | Elision => 0
  | ElementExpression e => expression_size e
  | ElementSpread s => spread_size s
  end.

(** *** Trees located as a parser locates them

    Every node spans at least one character, lies within its parent, and
    siblings follow one another in the text without overlap: a member
    expression's object before its property, a property's key before its
    value (they coincide in a shorthand property), a conditional's test
    before its consequent before its alternate, the entries of an object
    or array in list order. *)

Fixpoint chained (ls : list SourceLocation) : bool :=
  match ls with
  | a :: (b :: _) as rest => loc_before a b && chained rest
  | _ => true
  end.

Fixpoint wellLocated (e : Expression) : bool :=
  loc_nonempty (expression_loc e) &&
  match e with
  | Identifier _ _ | Literal _ _ | OtherExpression _ _ => true
  | MemberExpression l o p _ =>
      loc_inside (expression_loc o) l && loc_inside (expression_loc p) l
      && loc_before (expression_loc o) (expression_loc p)
      && wellLocated o && wellLocated p
  | ObjectExpression l ps =>
      forallb wellLocatedMember ps
      && forallb (fun a => loc_inside a l) (map member_loc ps)
      && chained (map member_loc ps)
  | ArrayExpression l es =>
      forallb wellLocatedElement es
      && forallb (fun a => loc_inside a l) (flat_map element_locs es)
      && chained (flat_map element_locs es)
  | ConditionalExpression l t c a =>
      loc_inside (expression_loc t) l && loc_inside (expression_loc c) l
      && loc_inside (expression_loc a) l
      && loc_before (expression_loc t) (expression_loc c)
      && loc_before (expression_loc c) (expression_loc a)
      && wellLocated t && wellLocated c && wellLocated a
  end
with wellLocatedSpread (s : SpreadElement) : bool :=
  match s with
  | Spread l a =>
      loc_nonempty l && loc_inside (expression_loc a) l && wellLocated a
  end
with wellLocatedMember (p : ObjectMember) : bool :=
  match p with
  | Property l k v _ _ shorthand =>
      loc_nonempty l
      && loc_inside (expression_loc k) l && loc_inside (expression_loc v) l
      && (shorthand || loc_before (expression_loc k) (expression_loc v))
      && wellLocated k && wellLocated v
  | SpreadProperty s => wellLocatedSpread s
  end
with wellLocatedElement (x : ArrayElement) : bool :=
  match x with
  | Elision => true
  | ElementExpression e => wellLocated e
  | ElementSpread s => wellLocatedSpread s
  end.

(** *** The nodes the walk classifies

    [Reaches ac e n]: walking [e] with [allowConditional = ac] either
    calls [reportDynamicInExpression] on [n] or hands [n] to [report] as
    the argument of a spread.  One constructor per call site of the
    source. *)

Definition isArrayOrObject (e : Expression) : bool :=
  match e with
  | ArrayExpression _ _ | ObjectExpression _ _ => true
  | _ => false
  end.

Inductive Reaches (ac : bool) : Expression -> Expression -> Prop :=
| Reaches_self e : Reaches ac e e
(* 233 and 174, 149 *)
| Reaches_object l ps p n :
    In p ps -> ReachesMember ac p n -> Reaches ac (ObjectExpression l ps) n
(* 238 and 190, 186 *)
| Reaches_array l es x n :
    In x es -> ReachesElement ac x n -> Reaches ac (ArrayExpression l es) n
(* 243 and 199 *)
| Reaches_consequent l t c a n :
    ac = true -> Reaches ac c n ->
    Reaches ac (ConditionalExpression l t c a) n
(* 243 and 198 *)
| Reaches_alternate l t c a n :
    ac = true -> Reaches ac a n ->
    Reaches ac (ConditionalExpression l t c a) n
with ReachesSpread (ac : bool) : SpreadElement -> Expression -> Prop :=
(* 132-138 *)
| ReachesSpread_literal l a n :
    isArrayOrObject a = true -> Reaches ac a n ->
    ReachesSpread ac (Spread l a) n
(* 140 *)
| ReachesSpread_argument l a :
    isArrayOrObject a = false -> ReachesSpread ac (Spread l a) a
with ReachesMember (ac : bool) : ObjectMember -> Expression -> Prop :=
(* 149 *)
| ReachesMember_spread s n :
    ReachesSpread ac s n -> ReachesMember ac (SpreadProperty s) n
(* 153-174 *)
| ReachesMember_value l k v n :
    isIdentifier k = false -> isStringLiteral k = false ->
    isIdentifier v = false -> Reaches ac v n ->
    ReachesMember ac (Property l k v false false false) n
with ReachesElement (ac : bool) : ArrayElement -> Expression -> Prop :=
(* 186 *)
| ReachesElement_spread s n :
    ReachesSpread ac s n -> ReachesElement ac (ElementSpread s) n
(* 190 *)
| ReachesElement_expression e n :
    Reaches ac e n -> ReachesElement ac (ElementExpression e) n.

(** An identifier whose name is not in the allowed list. *)
Definition unlistedIdentifier (allowedProps : list string) (n : Expression)
  : Prop :=
  exists l name, n = Identifier l name /\ includes allowedProps name = false.

(** *** The nodes the specification's rules 5-7 recurse into

    Follows the specification's words, to be compared with [Reaches]:
    array elements; spread arguments; the value of a property whose key
    is neither computed, nor an identifier, nor a string literal
    ("otherwise (key is some other dynamic shape) recurse into the
    property's value expression"); the two branches of a conditional when
    [allowConditional] is set. *)
Inductive SpecReaches (ac : bool) : Expression -> Expression -> Prop :=
| SpecReaches_self e : SpecReaches ac e e
| SpecReaches_element l es e n :
    In (ElementExpression e) es -> SpecReaches ac e n ->
    SpecReaches ac (ArrayExpression l es) n
| SpecReaches_array_spread l es l' a n :
    In (ElementSpread (Spread l' a)) es -> SpecReaches ac a n ->
    SpecReaches ac (ArrayExpression l es) n
| SpecReaches_object_spread l ps l' a n :
    In (SpreadProperty (Spread l' a)) ps -> SpecReaches ac a n ->
    SpecReaches ac (ObjectExpression l ps) n
| SpecReaches_value l ps l' k v n :
    In (Property l' k v false false false) ps ->
    isIdentifier k = false -> isStringLiteral k = false ->
    SpecReaches ac v n ->
    SpecReaches ac (ObjectExpression l ps) n
| SpecReaches_consequent l t c a n :
    ac = true -> SpecReaches ac c n ->
    SpecReaches ac (ConditionalExpression l t c a) n
| SpecReaches_alternate l t c a n :
    ac = true -> SpecReaches ac a n ->
    SpecReaches ac (ConditionalExpression l t c a) n.

(** *** Where the reports of a (well located) tree lie

    [within ls reports]: every report spans at least one character and
    lies inside one of the locations [ls]. *)
Definition within (ls : list SourceLocation) (reports : list Report) : Prop :=
  Forall (fun r => loc_nonempty (loc r) = true
                   /\ exists l, In l ls /\ loc_inside (loc r) l = true)
         reports.

(** The order in which two reports may follow one another in the sink:
    left to right, except that with [allowConditional] set they are only
    known not to overlap. *)
Definition emitOrder (ac : bool) (a b : Report) : Prop :=
  if ac then reportBefore a b \/ reportBefore b a else reportBefore a b.

(** A report as [report] builds it: the fixed message, located at its
    node. *)
Definition wellFormedReport (r : Report) : Prop := r = reportOf (node r).

(** *** The outcome of the dispatch on one node

    [fallsThrough ac allowed n]: [reportDynamicInExpression], called on
    [n], reaches [report(expression)] at line 247: [n] is an identifier
    that is not allowed, a literal that is not a string, a member access
    that is not an allowed one, a conditional when [allowConditional] is
    off, or an expression of a type the rule does not name. *)
Definition fallsThrough (ac : bool) (allowedProps : list string)
           (n : Expression) : bool :=
  match n with
  | Identifier _ name => negb (includes allowedProps name)
  | Literal _ (StringValue _) => false
  | Literal _ _ => true
  | MemberExpression _ (Identifier _ oname) (Identifier _ pname) _ =>
      negb (includes ["$props"; "$attrs"] oname
            && includes allowedProps pname)
  | MemberExpression _ _ _ _ => true
  | ObjectExpression _ _ | ArrayExpression _ _ => false
  | ConditionalExpression _ _ _ _ => negb ac
  | OtherExpression _ _ => true
  end.

(** A property that line 158 reports: computed or a method, and not
    shorthand. *)
Definition reportedProperty (p : ObjectMember) : bool :=
  match p with
  | Property _ _ _ computed method shorthand =>
      negb shorthand && (computed || method)
  | SpreadProperty _ => false
  end.

(** [explained reach t r]: the report [r] is for an expression that the
    walk of [t] reaches, or for a reported property of an object literal
    that it reaches. *)
Definition explained {T : Type} (reach : T -> Expression -> Prop)
           (t : T) (r : Report) : Prop :=
  (exists n, reach t n /\ r = reportOf (ExpressionNode n))
  \/ (exists l ps p, reach t (ObjectExpression l ps) /\ In p ps
                     /\ reportedProperty p = true
                     /\ r = reportOf (PropertyNode p)).

(** *** Statically keyed properties

    A property that is not a spread, not computed and not a method, and
    is shorthand or has an identifier or string-literal key. *)
Definition staticallyKeyed (p : ObjectMember) : bool :=
  match p with
  | Property _ k _ computed method shorthand =>
      negb computed && negb method
      && (shorthand || isIdentifier k || isStringLiteral k)
  | SpreadProperty _ => false
  end.

(** *** Accepted member accesses: [$props.name] and [$attrs.name] with
    [name] an allowed name. *)
Definition allowedMember (allowedProps : list string)
           (object property : Expression) : Prop :=
  exists lo oname lp pname,
    object = Identifier lo oname /\ property = Identifier lp pname
    /\ (oname = "$props" \/ oname = "$attrs") /\ In pname allowedProps.

(** *** The prop names an event declares *)
Definition declaredPropNames (event : Event) : list string :=
  match event with
  | DefinePropsEnter props | VueObjectEnter props => stringPropNames props
  | VAttributeEnter _ => []
  end.

Definition isComponentEvent (event : Event) : bool :=
  match event with
  | DefinePropsEnter _ | VueObjectEnter _ => true
  | VAttributeEnter _ => false
  end.

(* ================================================================== *)
(** ** Sample bindings *)

(** Columns [from, to) of line 1. *)
Definition span (from to : nat) : SourceLocation :=
  {| loc_start := {| line := 1; column := from |};
     loc_end := {| line := 1; column := to |} |}.

(** [cond ? "active" : ""] *)
Definition sample_cond : Expression := Identifier (span 0 4) "cond".
Definition sample_toggle : Expression :=
  ConditionalExpression (span 0 20) sample_cond
    (Literal (span 7 15) (StringValue "active"))
    (Literal (span 18 20) (StringValue "")).

(** [c ? x : y] *)
Definition sample_x : Expression := Identifier (span 4 5) "x".
Definition sample_y : Expression := Identifier (span 8 9) "y".
Definition sample_choice : Expression :=
  ConditionalExpression (span 0 9) (Identifier (span 0 1) "c")
    sample_x sample_y.

(** [{ 1: foo }] *)
Definition sample_foo : Expression := Identifier (span 5 8) "foo".
Definition sample_numbered : Expression :=
  ObjectExpression (span 0 10)
    [Property (span 2 8) (Literal (span 2 3) (NumberValue "1")) sample_foo
              false false false].

(** [[foo, {1: [bar]}, ...baz]] *)
Definition sample_bar : Expression := Identifier (span 11 14) "bar".
Definition sample_nested : Expression :=
  ArrayExpression (span 0 25)
    [ElementExpression (Identifier (span 1 4) "foo");
     ElementExpression
       (ObjectExpression (span 6 16)
          [Property (span 7 15) (Literal (span 7 8) (NumberValue "1"))
                    (ArrayExpression (span 10 15)
                                     [ElementExpression sample_bar])
                    false false false]);
     ElementSpread (Spread (span 18 24) (Identifier (span 21 24) "baz"))].

(** [[f(), { [k]: 1 }]] *)
Definition sample_call : Expression :=
  OtherExpression (span 1 4) "CallExpression".
Definition sample_computed : ObjectMember :=
  Property (span 8 14) (Identifier (span 9 10) "k")
           (Literal (span 13 14) (NumberValue "1")) true false false.
Definition sample_mixed : Expression :=
  ArrayExpression (span 0 17)
    [ElementExpression sample_call;
     ElementExpression (ObjectExpression (span 6 16) [sample_computed])].

(** [{ active: isOpen(), "is-big": n > 3, wide }] *)
Definition sample_keyed : list ObjectMember :=
  [Property (span 2 18) (Identifier (span 2 8) "active")
            (OtherExpression (span 10 18) "CallExpression") false false false;
   Property (span 20 35) (Literal (span 20 28) (StringValue "is-big"))
            (OtherExpression (span 30 35) "BinaryExpression")
            false false false;
   Property (span 37 41) (Identifier (span 37 41) "wide")
            (Identifier (span 37 41) "wide") false false true].

(** [ok ? "a" : b] bound with [v-bind:class], and a context that leaves
    every option out. *)
Definition sample_ternary : Expression :=
  ConditionalExpression (span 0 12) (Identifier (span 0 2) "ok")
    (Literal (span 5 8) (StringValue "a")) (Identifier (span 11 12) "b").

Definition bindClass : VDirectiveKey :=
  {| directive_name := "bind"; argument := Some (VIdentifierArgument "class") |}.

Definition defaultContext : RuleContext :=
  {| options := []; defineTemplateBodyVisitor := true |}.

(** [{ allowConditional: true, allowProps: true }] *)
Definition toggleContext : RuleContext :=
  {| options := [ {| classAttrNames := None; allowConditional := Some true;
                     allowProps := Some true |} ];
     defineTemplateBodyVisitor := true |}.

(** [{ allowProps: true }] *)
Definition propsContext : RuleContext :=
  {| options := [ {| classAttrNames := None; allowConditional := None;
                     allowProps := Some true |} ];
     defineTemplateBodyVisitor := true |}.

(* ================================================================== *)
(** ** Vocabulary of the further properties *)

(** One list of reports is contained in another and is no longer. *)
Definition fewerReports (xs ys : list Report) : Prop :=
  incl xs ys /\ List.length xs <= List.length ys.

(** The entries an entry stands for when the array literal it spreads
    is written out in its place. *)
Definition inlineArraySpread (x : ArrayElement) : list ArrayElement :=
  match x with
  | ElementSpread (Spread _ (ArrayExpression _ es)) => es
  | _ => [x]
  end.

(** The properties a property stands for when the object literal it
    spreads is written out in its place. *)
Definition inlineObjectSpread (p : ObjectMember) : list ObjectMember :=
  match p with
  | SpreadProperty (Spread _ (ObjectExpression _ ps)) => ps
  | _ => [p]
  end.

(** An entry of an array literal that is not an elision. *)
Definition isEntry (x : ArrayElement) : bool :=
  match x with Elision => false | _ => true end.

(** An attribute that carries no expression: a plain attribute, a
    directive without a value, or one whose container is empty. *)
Definition withoutExpression (node : Attribute) : bool :=
  match node with
  | VDirective _ (Some (Some _)) => false
  | _ => true
  end.

(** Whether the [VAttribute] callback lets [node] through to
    [reportDynamic]: it has a name, and the name is found to satisfy the
    watched list. *)
Definition watched (isRegExp : string -> bool)
           (toRegExp : string -> option (string -> bool))
           (context : RuleContext) (node : Attribute) : bool :=
  match getName node with
  | Some name =>
      match isSatisfyList isRegExp toRegExp (names context) name with
      | Some satisfies => satisfies
      | None => false
      end
  | None => false
  end.

(** Whether the [VAttribute] callback throws on [node]: it has a name,
    and matching the name against the watched list throws. *)
Definition gateThrows (isRegExp : string -> bool)
           (toRegExp : string -> option (string -> bool))
           (context : RuleContext) (node : Attribute) : bool :=
  match getName node with
  | Some name =>
      match isSatisfyList isRegExp toRegExp (names context) name with
      | Some _ => false
      | None => true
      end
  | None => false
  end.

(** Whether handing [event] to the listener throws. *)
Definition throwsOn (isRegExp : string -> bool)
           (toRegExp : string -> option (string -> bool))
           (context : RuleContext) (event : Event) : bool :=
  match event with
  | VAttributeEnter node =>
      defineTemplateBodyVisitor context
      && gateThrows isRegExp toRegExp context node
  | _ => false
  end.

(** The events of a pass that are handled: those before the first one
    on which a callback throws. *)
Fixpoint handled (isRegExp : string -> bool)
         (toRegExp : string -> option (string -> bool))
         (context : RuleContext) (events : list Event) : list Event :=
  match events with
  | [] => []
  | event :: rest =>
      if throwsOn isRegExp toRegExp context event then []
      else event :: handled isRegExp toRegExp context rest
  end.

(** The store after an event on which no callback throws. *)
Definition advance (isRegExp : string -> bool)
           (toRegExp : string -> option (string -> bool))
           (context : RuleContext) (st : Store) (event : Event) : Store :=
  if negb (defineTemplateBodyVisitor context) then st
  else match event with
       | VAttributeEnter node =>
           if watched isRegExp toRegExp context node
           then {| propNames := propNames st;
                   problems :=
                     reportDynamic (option_allowConditional context)
                                   node (propNames st) (problems st) |}
           else st
       | DefinePropsEnter props | VueObjectEnter props =>
           if option_allowProps context then pushPropNames props st else st
       end.

(** The allowed names in force after [events]. *)
Definition allowedAfter (context : RuleContext) (events : list Event)
  : list string :=
  "class" :: (if option_allowProps context
              then flat_map declaredPropNames events else []).

(* ================================================================== *)
(** ** The rule registry, [lib/utils/rules.ts] *)

Module Registry.

(** The own properties of a JavaScript object whose values are strings:
    setting a key that is present replaces its value in place, setting a
    new key adds it -- except for the key [__proto__], which is an
    accessor of [Object.prototype]: assigning a string to it creates no
    own property and changes nothing.  Only lookups of own properties are
    reasoned about; the order in which a host enumerates the keys is not
    modelled. *)
Definition JsObject : Type := list (string * string).

Fixpoint objectGet (obj : JsObject) (key : string) : option string :=
  match obj with
  | [] => None
  | (k, v) :: rest => if (k =? key)%string then Some v else objectGet rest key
  end.

Fixpoint setOwn (obj : JsObject) (key value : string) : JsObject :=
  match obj with
  | [] => [(key, value)]
  | (k, v) :: rest =>
      if (k =? key)%string then (k, value) :: rest
      else (k, v) :: setOwn rest key value
  end.

(** [obj[key] = value] *)
Definition objectSet (obj : JsObject) (key value : string) : JsObject :=
  if (key =? "__proto__")%string then obj else setOwn obj key value.

(** [meta.docs] of a rule; [ruleName] and [ruleId] are filled in by the
    registry, [default] may be left out. *)
Record RuleDocs : Type :=
  { description : string;
    categories : list string;
    default : option string;
    url : string;
    ruleName : option string;
    ruleId : option string }.

(** What the registry reads of a rule module's [meta]. *)
Record RuleMeta : Type :=
  { docs : RuleDocs; deprecated : option bool }.

Record Rule : Type := { meta : RuleMeta }.

(** The [meta] exported by the rule, lines 79-111 of the rule's file. *)
Definition noDynamicClassNames : Rule :=
  {| meta :=
       {| docs :=
            {| description := "disallow dynamic class names usage";
               categories := [];
               default := Some "error";
               url := "https://github.com/levchak0910/eslint-plugin-vue-kebab-class-naming/rules/no-dynamic-class-names.html";
               ruleName := None;
               ruleId := None |};
          deprecated := None |} |}.

(** An entry of [baseRules]. *)
Record BaseRule : Type :=
  { base_rule : Rule; base_ruleName : string; base_ruleId : string }.

Definition baseRules : list BaseRule :=
  [ {| base_rule := noDynamicClassNames;
       base_ruleName := "no-dynamic-class-names";
       base_ruleId := "vue-kebab-class-naming/no-dynamic-class-names" |} ].

(** The callback of [baseRules.map], lines 11-16. *)
Definition nameRule (obj : BaseRule) : Rule :=
  let rule := base_rule obj in
  {| meta :=
       {| docs :=
            {| description := description (docs (meta rule));
               categories := categories (docs (meta rule));
               default := default (docs (meta rule));
               url := url (docs (meta rule));
               ruleName := Some (base_ruleName obj);
               ruleId := Some (base_ruleId obj) |};
          deprecated := deprecated (meta rule) |} |}.

Definition rules : list Rule := map nameRule baseRules.

(** [!rule.meta.deprecated] *)
Definition notDeprecated (rule : Rule) : bool :=
  match deprecated (meta rule) with Some true => false | _ => true end.

(** [rule.meta.docs.ruleId || ""] *)
Definition ruleKey (rule : Rule) : string :=
  match ruleId (docs (meta rule)) with Some id => id | None => "" end.

(** [rule.meta.docs.default || "error"] *)
Definition ruleLevel (rule : Rule) : string :=
  match default (docs (meta rule)) with
  | Some level => if (level =? "")%string then "error" else level
  | None => "error"
  end.

(** The [reduce] of [collectRules], lines 25-33, over any array of
    rules. *)
Definition collectRulesFrom (rules : list Rule) : JsObject :=
  fold_left (fun obj rule =>
               if notDeprecated rule
               then objectSet obj (ruleKey rule) (ruleLevel rule)
               else obj)
            rules [].

(** [collectRules], lines 22-34. *)
Definition collectRules : JsObject := collectRulesFrom rules.

End Registry.

(* ================================================================== *)
(** ** The config presets (the tool that loads [lib/configs]) *)

Module Presets.

(** [dirent.name.replace(/\.ts$/u, "")]: the pattern is anchored at the
    end of the name, so at most the final [.ts] is removed. *)
Fixpoint stripTs (s : string) : string :=
  if (s =? ".ts")%string then EmptyString
  else match s with
       | EmptyString => EmptyString
       | String c rest => String c (stripTs rest)
       end.

(** An entry of [fs.readdirSync(configsRoot, { withFileTypes: true })]. *)
Record Dirent : Type := { dirent_name : string; isFile : bool }.

(** [extends?: string | string[]] of a config module. *)
Inductive Extends : Type :=
| ExtendsPath (p : string)
| ExtendsPaths (ps : list string).

(** The exports of a config module ([rules] as an association list). *)
Record ConfigModule : Type :=
  { module_rules : option (list (string * string));
    module_extends : option Extends }.

(** [Config].  [extends] holds references to other elements of the
    [configs] array: a reference is the position of the element. *)
Record Config : Type :=
  { name : string;
    configId : string;
    config : ConfigModule;
    path : string;
    extends : list nat }.

Section ReadConfigs.

(** [require.resolve(path.join(configsRoot, dirent.name))] and
    [require(configPath)], as they answered when the tool ran. *)
Variable resolvePath : string -> string.
Variable load : string -> ConfigModule.

(** [readConfigs], lines 17-37, on the listing of the directory. *)
Definition readConfigs (result : list Dirent) : list Config :=
  fold_left
    (fun configs dirent =>
       if negb (isFile dirent) then configs
       else
         let configName := stripTs (dirent_name dirent) in
         let configId := ("plugin:vue-scoped-css/" ++ configName)%string in
         let configPath := resolvePath (dirent_name dirent) in
         let config := load configPath in
         configs ++ [ {| name := configName; configId := configId;
                         config := config; path := configPath;
                         extends := [] |} ])
    result [].

End ReadConfigs.

(** [extendsList], lines 42-46: nothing for a missing or empty
    [extends], the array itself, or the one path. *)
Definition extendsList (c : Config) : list string :=
  match module_extends (config c) with
  | None => []
  | Some (ExtendsPath p) => if (p =? "")%string then [] else [p]
  | Some (ExtendsPaths ps) => ps
  end.

(** [configs.find((c) => c.path === p)]: a reference to the first
    element with that path, if any. *)
Fixpoint findByPath (configs : list Config) (p : string) : option nat :=
  match configs with
  | [] => None
  | c :: rest =>
      if (path c =? p)%string then Some 0
      else option_map S (findByPath rest p)
  end.

(** [.filter(isDefined)]: [isDefined] is imported from [lib/utils/utils],
    not among the sources; as the guard that turns
    [(Config | undefined)[]] into [Config[]] it keeps what [find]
    found. *)
Definition filterDefined {A : Type} (l : list (option A)) : list A :=
  flat_map (fun x => match x with Some a => [a] | None => [] end) l.

(** The right-hand side of line 47, in the store [configs]. *)
Definition resolved (configs : list Config) (c : Config) : list nat :=
  filterDefined (map (findByPath configs) (extendsList c)).

Definition setExtends (c : Config) (refs : list nat) : Config :=
  {| name := name c; configId := configId c; config := config c;
     path := path c; extends := refs |}.

(** Assignment to a field of the [i]th element. *)
Fixpoint update (i : nat) (f : Config -> Config) (configs : list Config)
  : list Config :=
  match configs, i with
  | [], _ => []
  | c :: rest, 0 => f c :: rest
  | c :: rest, S i' => c :: update i' f rest
  end.

(** One iteration of the loop of lines 41-50, on the [i]th element: the
    paths are looked up in the array as it is at that moment. *)
Definition linkConfig (configs : list Config) (i : nat) : list Config :=
  update i (fun c => setExtends c (resolved configs c)) configs.

(** The loop of lines 41-50. *)
Definition linkConfigs (configs : list Config) : list Config :=
  fold_left linkConfig (seq 0 (List.length configs)) configs.

End Presets.

(** Whether some config of the array has the path [p]. *)
Definition knownPath (configs : list Presets.Config) (p : string) : bool :=
  existsb (fun c => (Presets.path c =? p)%string) configs.

(** The path of the config a reference points to. *)
Definition pathOf (configs : list Presets.Config) (i : nat) : option string :=
  option_map Presets.path (nth_error configs i).

(** A reading of the regular-expression helpers for the samples: an
    entry written between slashes is a pattern, [/(/] does not compile,
    and every other pattern accepts the names that start with [cls-]. *)
Definition sample_isRegExp (s : string) : bool :=
  String.prefix "/" s.

Definition sample_toRegExp (s : string) : option (string -> bool) :=
  if (s =? "/(/")%string then None else Some (String.prefix "cls-").

(** Two presets: [base.ts], and [recommended.ts], which extends [base]
    and a path that is not a preset. *)
Definition sample_presets : list Presets.Config :=
  [ {| Presets.name := "base";
       Presets.configId := "plugin:vue-scoped-css/base";
       Presets.config := {| Presets.module_rules := None;
                            Presets.module_extends := None |};
       Presets.path := "/lib/configs/base.ts";
       Presets.extends := [] |};
    {| Presets.name := "recommended";
       Presets.configId := "plugin:vue-scoped-css/recommended";
       Presets.config :=
         {| Presets.module_rules := None;
            Presets.module_extends :=
              Some (Presets.ExtendsPaths ["/lib/configs/base.ts";
                                          "/lib/configs/other.ts"]) |};
       Presets.path := "/lib/configs/recommended.ts";
       Presets.extends := [] |} ].

Definition sample_linked : Presets.Config :=
  {| Presets.name := "recommended";
     Presets.configId := "plugin:vue-scoped-css/recommended";
     Presets.config :=
       {| Presets.module_rules := None;
          Presets.module_extends :=
            Some (Presets.ExtendsPaths ["/lib/configs/base.ts";
                                        "/lib/configs/other.ts"]) |};
     Presets.path := "/lib/configs/recommended.ts";
     Presets.extends := [0] |}.

(* ================================================================== *)
(** ** Induction over the syntax

    The lists of properties and elements are nested inside the mutual
    block, so the induction scheme is written by hand: one predicate per
    syntactic class, [Forall] for the entries of a list. *)

Section SyntaxInduction.

Variable P : Expression -> Prop.
Variable PS : SpreadElement -> Prop.
Variable PM : ObjectMember -> Prop.
Variable PE : ArrayElement -> Prop.

Hypothesis case_Identifier : forall l n, P (Identifier l n).
Hypothesis case_Literal : forall l v, P (Literal l v).
Hypothesis case_Member :
  forall l o p c, P o -> P p -> P (MemberExpression l o p c).
Hypothesis case_Object :
  forall l ps, Forall PM ps -> P (ObjectExpression l ps).
Hypothesis case_Array :
  forall l es, Forall PE es -> P (ArrayExpression l es).
Hypothesis case_Conditional :
  forall l t c a, P t -> P c -> P a -> P (ConditionalExpression l t c a).
Hypothesis case_Other : forall l ty, P (OtherExpression l ty).
Hypothesis case_Spread : forall l a, P a -> PS (Spread l a).
Hypothesis case_Property :
  forall l k v c m s, P k -> P v -> PM (Property l k v c m s).
Hypothesis case_SpreadProperty : forall s, PS s -> PM (SpreadProperty s).
Hypothesis case_Elision : PE Elision.
Hypothesis case_ElementExpression :
  forall e, P e -> PE (ElementExpression e).
Hypothesis case_ElementSpread : forall s, PS s -> PE (ElementSpread s).

Fixpoint Expression_syntax_ind (e : Expression) : P e :=
  match e with
  | Identifier l n => case_Identifier l n
  | Literal l v => case_Literal l v
  | MemberExpression l o p c =>
      case_Member l o p c (Expression_syntax_ind o) (Expression_syntax_ind p)
  | ObjectExpression l ps =>
      case_Object l ps
        ((fix members (ps : list ObjectMember) : Forall PM ps :=
            match ps with
            | [] => Forall_nil PM
            | p :: ps' =>
                Forall_cons p (ObjectMember_syntax_ind p) (members ps')
            end) ps)
  | ArrayExpression l es =>
      case_Array l es
        ((fix entries (es : list ArrayElement) : Forall PE es :=
            match es with
            | [] => Forall_nil PE
            | x :: es' =>
                Forall_cons x (ArrayElement_syntax_ind x) (entries es')
            end) es)
  | ConditionalExpression l t c a =>
      case_Conditional l t c a (Expression_syntax_ind t)
        (Expression_syntax_ind c) (Expression_syntax_ind a)
  | OtherExpression l ty => case_Other l ty
  end
with SpreadElement_syntax_ind (s : SpreadElement) : PS s :=
  match s with
  | Spread l a => case_Spread l a (Expression_syntax_ind a)
  end
with ObjectMember_syntax_ind (p : ObjectMember) : PM p :=
  match p with
  | Property l k v c m s =>
      case_Property l k v c m s
        (Expression_syntax_ind k) (Expression_syntax_ind v)
  | SpreadProperty s => case_SpreadProperty s (SpreadElement_syntax_ind s)
  end
with ArrayElement_syntax_ind (x : ArrayElement) : PE x :=
  match x with
  | Elision => case_Elision
  | ElementExpression e =>
      case_ElementExpression e (Expression_syntax_ind e)
  | ElementSpread s => case_ElementSpread s (SpreadElement_syntax_ind s)
  end.

Lemma syntax_ind :
  (forall e, P e) /\ (forall s, PS s) /\ (forall p, PM p)
  /\ (forall x, PE x).
Proof.
  repeat split.
  - exact Expression_syntax_ind.
  - exact SpreadElement_syntax_ind.
  - exact ObjectMember_syntax_ind.
  - exact ArrayElement_syntax_ind.
Qed.

End SyntaxInduction.

(* ================================================================== *)
(** ** The sink is append-only *)

Lemma fold_left_emit {A : Type} (f : Sink -> A -> Sink) (l : list A) :
  Forall (fun x => forall s, f s x = s ++ f [] x) l ->
  forall s, fold_left f l s = s ++ flat_map (f []) l.
Proof.
  induction 1 as [|x l Hx _ IH]; intros s; simpl.
  - now rewrite app_nil_r.
  - rewrite IH, Hx, <- app_assoc. reflexivity.
Qed.

Section AppendOnly.

Variable allowConditional : bool.
Variable allowedProps : list string.

Let inExpression := reportDynamicInExpression allowConditional.
Let inSpread := reportDynamicInSpread allowConditional.
Let inProperty := reportDynamicInProperty allowConditional.
Let inElement := reportDynamicInElement allowConditional.

Lemma walk_emit :
  (forall e s, inExpression e allowedProps s
               = s ++ inExpression e allowedProps [])
  /\ (forall sp s, inSpread sp allowedProps s
                   = s ++ inSpread sp allowedProps [])
  /\ (forall p s, inProperty p allowedProps s
                  = s ++ inProperty p allowedProps [])
  /\ (forall x s, inElement x allowedProps s
                  = s ++ inElement x allowedProps []).
Proof.
  subst inExpression inSpread inProperty inElement.
  apply syntax_ind; intros; simpl;
    try solve [ reflexivity | now rewrite app_nil_r ].
  - (* Identifier *)
    destruct (includes allowedProps n); [now rewrite app_nil_r | reflexivity].
  - (* Literal *)
    destruct v; solve [ reflexivity | now rewrite app_nil_r ].
  - (* MemberExpression *)
    destruct o; try reflexivity.
    destruct p; try reflexivity.
    destruct (_ && _); [now rewrite app_nil_r | reflexivity].
  - (* ObjectExpression *)
    rewrite !(fold_left_emit _ ps) by assumption. reflexivity.
  - (* ArrayExpression *)
    rewrite !(fold_left_emit _ es) by assumption. reflexivity.
  - (* ConditionalExpression *)
    destruct allowConditional; [|reflexivity].
    rewrite (H1 s), (H0 (s ++ _)), (H0 (reportDynamicInExpression _ a _ [])).
    now rewrite app_assoc.
  - (* Spread *)
    destruct a; try reflexivity; apply H.
  - (* Property *)
    destruct s; [now rewrite app_nil_r|].
    destruct (c || m); [reflexivity|].
    destruct (isIdentifier k); [now rewrite app_nil_r|].
    destruct (isStringLiteral k); [now rewrite app_nil_r|].
    destruct (isIdentifier v); [now rewrite app_nil_r|].
    apply H0.
  - (* SpreadProperty *) apply H.
  - (* ElementExpression *) apply H.
  - (* ElementSpread *) apply H.
Qed.

End AppendOnly.

(* ================================================================== *)
(** ** Unfolding the walk into the reports of its parts *)

Lemma includes_In (l : list string) (x : string) :
  includes l x = true <-> In x l.
Proof.
  unfold includes. rewrite existsb_exists. split.
  - intros (y & Hy & E). apply String.eqb_eq in E. now subst.
  - intros H. exists x. split; [assumption | apply String.eqb_refl].
Qed.

Section Unfold.

Variable ac : bool.
Variable allowedProps : list string.

Lemma inExpression_emit e s :
  reportDynamicInExpression ac e allowedProps s
  = s ++ classify ac allowedProps e.
Proof. apply (walk_emit ac allowedProps). Qed.

Lemma inSpread_emit sp s :
  reportDynamicInSpread ac sp allowedProps s
  = s ++ reportDynamicInSpread ac sp allowedProps [].
Proof. apply (walk_emit ac allowedProps). Qed.

Lemma inProperty_emit p s :
  reportDynamicInProperty ac p allowedProps s
  = s ++ reportDynamicInProperty ac p allowedProps [].
Proof. apply (walk_emit ac allowedProps). Qed.

Lemma inElement_emit x s :
  reportDynamicInElement ac x allowedProps s
  = s ++ reportDynamicInElement ac x allowedProps [].
Proof. apply (walk_emit ac allowedProps). Qed.

Lemma inObject_emit ps s :
  reportDynamicInObject ac ps allowedProps s
  = s ++ flat_map (fun p => reportDynamicInProperty ac p allowedProps []) ps.
Proof.
  unfold reportDynamicInObject.
  apply (fold_left_emit
           (fun s p => reportDynamicInProperty ac p allowedProps s)).
  apply Forall_forall. intros p _ s'. apply inProperty_emit.
Qed.

Lemma inArray_emit es s :
  reportDynamicInArray ac es allowedProps s
  = s ++ flat_map (fun x => reportDynamicInElement ac x allowedProps []) es.
Proof.
  unfold reportDynamicInArray.
  apply (fold_left_emit
           (fun s x => reportDynamicInElement ac x allowedProps s)).
  apply Forall_forall. intros x _ s'. apply inElement_emit.
Qed.

Lemma classify_object l ps :
  classify ac allowedProps (ObjectExpression l ps)
  = flat_map (fun p => reportDynamicInProperty ac p allowedProps []) ps.
Proof. exact (inObject_emit ps []). Qed.

Lemma classify_array l es :
  classify ac allowedProps (ArrayExpression l es)
  = flat_map (fun x => reportDynamicInElement ac x allowedProps []) es.
Proof. exact (inArray_emit es []). Qed.

Lemma classify_conditional l t c a :
  classify ac allowedProps (ConditionalExpression l t c a)
  = if ac
    then classify ac allowedProps a ++ classify ac allowedProps c
    else [reportOf (ExpressionNode (ConditionalExpression l t c a))].
Proof.
  unfold classify at 1.
  change (reportDynamicInExpression ac (ConditionalExpression l t c a)
            allowedProps [])
    with (if ac
          then reportDynamicInExpression ac c allowedProps
                 (reportDynamicInExpression ac a allowedProps [])
          else report (ExpressionNode (ConditionalExpression l t c a)) []).
  rewrite inExpression_emit. reflexivity.
Qed.

Lemma inSpread_literal l a :
  isArrayOrObject a = true ->
  reportDynamicInSpread ac (Spread l a) allowedProps []
  = classify ac allowedProps a.
Proof. destruct a; simpl; intros H; try discriminate; reflexivity. Qed.

Lemma inSpread_argument l a :
  isArrayOrObject a = false ->
  reportDynamicInSpread ac (Spread l a) allowedProps []
  = [reportOf (ExpressionNode a)].
Proof. destruct a; simpl; intros H; try discriminate; reflexivity. Qed.

End Unfold.

(* ================================================================== *)
(** ** Geometry of source locations *)

Lemma pos_leb_spec p q :
  pos_leb p q = true
  <-> line p < line q \/ (line p = line q /\ column p <= column q).
Proof.
  unfold pos_leb.
  rewrite orb_true_iff, andb_true_iff, Nat.ltb_lt, Nat.eqb_eq, Nat.leb_le.
  reflexivity.
Qed.

Lemma pos_ltb_spec p q :
  pos_ltb p q = true
  <-> line p < line q \/ (line p = line q /\ column p < column q).
Proof.
  unfold pos_ltb.
  rewrite orb_true_iff, andb_true_iff, !Nat.ltb_lt, Nat.eqb_eq.
  reflexivity.
Qed.

Ltac geometry :=
  unfold reportBefore, loc_before, loc_inside, loc_nonempty in *;
  repeat match goal with
         | H : _ /\ _ |- _ => destruct H
         | H : _ && _ = true |- _ => apply andb_true_iff in H
         | H : pos_leb _ _ = true |- _ => apply pos_leb_spec in H
         | H : pos_ltb _ _ = true |- _ => apply pos_ltb_spec in H
         | |- _ && _ = true => apply andb_true_iff; split
         | |- pos_leb _ _ = true => apply pos_leb_spec
         | |- pos_ltb _ _ = true => apply pos_ltb_spec
         end;
  try lia.

Lemma loc_inside_refl l : loc_inside l l = true.
Proof. geometry. Qed.

Lemma loc_inside_trans a b c :
  loc_inside a b = true -> loc_inside b c = true -> loc_inside a c = true.
Proof. intros; geometry. Qed.

Lemma loc_before_inside A B a b :
  loc_before A B = true -> loc_inside a A = true -> loc_inside b B = true ->
  loc_before a b = true.
Proof. intros; geometry. Qed.

Lemma loc_before_trans a b c :
  loc_before a b = true -> loc_nonempty b = true -> loc_before b c = true ->
  loc_before a c = true.
Proof. intros; geometry. Qed.

Lemma pos_eqb_eq p q : pos_eqb p q = true <-> p = q.
Proof.
  unfold pos_eqb. rewrite andb_true_iff, !Nat.eqb_eq.
  destruct p, q; simpl. split.
  - intros [-> ->]. reflexivity.
  - intros E. injection E. auto.
Qed.

Lemma loc_eqb_eq a b : loc_eqb a b = true <-> a = b.
Proof.
  unfold loc_eqb. rewrite andb_true_iff, !pos_eqb_eq.
  destruct a, b; simpl. split.
  - intros [-> ->]. reflexivity.
  - intros E. injection E. auto.
Qed.

Lemma loc_eqb_refl a : loc_eqb a a = true.
Proof. now apply loc_eqb_eq. Qed.

Lemma loc_before_neq a b :
  loc_before a b = true -> loc_nonempty a = true -> a <> b.
Proof. intros Hb Ha ->. geometry. Qed.

Lemma chained_sorted ls :
  Forall (fun l => loc_nonempty l = true) ls ->
  chained ls = true ->
  StronglySorted (fun a b => loc_before a b = true) ls.
Proof.
  induction 1 as [|a ls Ha Hls IH]; intros Hc; [constructor|].
  destruct ls as [|b ls]; [repeat constructor|].
  simpl in Hc. apply andb_true_iff in Hc. destruct Hc as [Hab Hc].
  specialize (IH Hc). constructor; [exact IH|].
  constructor; [exact Hab|].
  inversion IH as [|? ? _ Hb]; subst.
  inversion Hls as [|? ? Hbne _]; subst.
  eapply Forall_impl; [|exact Hb].
  intros c Hbc. now apply (loc_before_trans a b c).
Qed.

(* ================================================================== *)
(** ** Sorted lists, piecewise *)

Lemma StronglySorted_app {A : Type} (R : A -> A -> Prop) (l1 l2 : list A) :
  StronglySorted R l1 -> StronglySorted R l2 ->
  (forall a b, In a l1 -> In b l2 -> R a b) ->
  StronglySorted R (l1 ++ l2).
Proof.
  induction 1 as [|x l1 Hs IH Hx]; intros H2 Hc; simpl; [assumption|].
  constructor.
  - apply IH; [assumption|]. intros a b Ha Hb. apply Hc; [now right|assumption].
  - apply Forall_app. split; [assumption|].
    apply Forall_forall. intros b Hb. apply Hc; [now left|assumption].
Qed.

Lemma StronglySorted_across {A : Type} (R : A -> A -> Prop) (l1 l2 : list A) :
  StronglySorted R (l1 ++ l2) ->
  forall a b, In a l1 -> In b l2 -> R a b.
Proof.
  induction l1 as [|x l1 IH]; simpl; intros Hs a b Ha Hb; [contradiction|].
  inversion Hs as [|? ? Hs' Hx]; subst.
  destruct Ha as [->|Ha].
  - rewrite Forall_forall in Hx. apply Hx, in_or_app. now right.
  - now apply IH.
Qed.

Lemma within_weaken ls ls' rs :
  (forall r l, loc_nonempty (loc r) = true -> In l ls ->
               loc_inside (loc r) l = true ->
               exists l', In l' ls' /\ loc_inside (loc r) l' = true) ->
  within ls rs -> within ls' rs.
Proof.
  intros H. unfold within. apply Forall_impl.
  intros r (Hne & l & Hl & Hin). split; [assumption|]. now apply (H r l).
Qed.

Lemma within_parent child parent rs :
  loc_inside child parent = true -> within [child] rs -> within [parent] rs.
Proof.
  intros Hcp. apply within_weaken. intros r l _ [<-|[]] Hin.
  exists parent. split; [now left|]. now apply (loc_inside_trans _ child).
Qed.

Lemma within_single n :
  loc_nonempty (node_loc n) = true -> within [node_loc n] [reportOf n].
Proof.
  intros H. constructor; [|constructor]. simpl. split; [assumption|].
  exists (node_loc n). split; [now left | apply loc_inside_refl].
Qed.

Lemma emitOrder_before ac a b : reportBefore a b -> emitOrder ac a b.
Proof. unfold emitOrder. destruct ac; auto. Qed.

Lemma sorted_single ac r : StronglySorted (emitOrder ac) [r].
Proof. repeat constructor. Qed.

(** The reports of the entries of a list, when the entries follow one
    another in the text, come out in emission order. *)
Lemma flat_map_located {A : Type} (ac : bool) (f : A -> list Report)
      (locs : A -> list SourceLocation) (xs : list A) :
  StronglySorted (fun a b => loc_before a b = true) (flat_map locs xs) ->
  Forall (fun x => StronglySorted (emitOrder ac) (f x) /\ within (locs x) (f x))
         xs ->
  StronglySorted (emitOrder ac) (flat_map f xs)
  /\ within (flat_map locs xs) (flat_map f xs).
Proof.
  induction xs as [|x xs IH]; simpl; intros Hs Hall.
  - split; constructor.
  - inversion Hall as [|? ? [Hx Hwx] Hxs]; subst.
    assert (Hs' : StronglySorted (fun a b => loc_before a b = true)
                                 (flat_map locs xs)).
    { clear -Hs. induction (locs x) as [|l ls IHl]; simpl in Hs; [assumption|].
      inversion Hs; subst. auto. }
    destruct (IH Hs' Hxs) as [IHs IHw]. split.
    + apply StronglySorted_app; [assumption..|].
      intros a b Ha Hb. apply emitOrder_before.
      unfold within in Hwx, IHw. rewrite Forall_forall in Hwx, IHw.
      destruct (Hwx a Ha) as (_ & la & Hla & Hia).
      destruct (IHw b Hb) as (_ & lb & Hlb & Hib).
      unfold reportBefore.
      apply (loc_before_inside la lb); [|assumption..].
      now apply (StronglySorted_across _ _ _ Hs).
    + apply Forall_app. split.
      * eapply within_weaken; [|exact Hwx].
        intros r l _ Hl Hin. exists l. split; [|assumption].
        apply in_or_app. now left.
      * eapply within_weaken; [|exact IHw].
        intros r l _ Hl Hin. exists l. split; [|assumption].
        apply in_or_app. now right.
Qed.

(* ================================================================== *)
(** ** Where the reports of a well-located tree lie, and in what order *)

Lemma flat_map_singleton {A B : Type} (g : A -> B) (l : list A) :
  flat_map (fun x => [g x]) l = map g l.
Proof. induction l; simpl; congruence. Qed.

Lemma wellLocated_nonempty e :
  wellLocated e = true -> loc_nonempty (expression_loc e) = true.
Proof.
  destruct e; simpl; intros H; apply andb_true_iff in H; apply H.
Qed.

Lemma wellLocatedSpread_nonempty s :
  wellLocatedSpread s = true -> loc_nonempty (spread_loc s) = true.
Proof.
  destruct s; simpl; intros H.
  apply andb_true_iff in H. destruct H as [H _].
  apply andb_true_iff in H. apply H.
Qed.

Lemma wellLocatedMember_nonempty p :
  wellLocatedMember p = true -> loc_nonempty (member_loc p) = true.
Proof.
  destruct p; simpl; intros H; [|now apply wellLocatedSpread_nonempty].
  repeat (apply andb_true_iff in H; destruct H as [H _]). exact H.
Qed.

Lemma wellLocatedElement_nonempty x :
  wellLocatedElement x = true ->
  Forall (fun l => loc_nonempty l = true) (element_locs x).
Proof.
  destruct x; simpl; intros H; repeat constructor.
  - now apply wellLocated_nonempty.
  - now apply wellLocatedSpread_nonempty.
Qed.

(** The entries of an object or array literal at [l]. *)
Lemma entries_located {A : Type} (ac : bool) (f : A -> list Report)
      (locs : A -> list SourceLocation) (wl : A -> bool)
      (xs : list A) (l : SourceLocation) :
  Forall (fun x => wl x = true ->
                   StronglySorted (emitOrder ac) (f x) /\ within (locs x) (f x))
         xs ->
  (forall x, wl x = true -> Forall (fun a => loc_nonempty a = true) (locs x)) ->
  forallb wl xs = true ->
  forallb (fun a => loc_inside a l) (flat_map locs xs) = true ->
  chained (flat_map locs xs) = true ->
  StronglySorted (emitOrder ac) (flat_map f xs) /\ within [l] (flat_map f xs).
Proof.
  intros IH Hne Hwl Hin Hch.
  rewrite forallb_forall in Hwl, Hin.
  destruct (flat_map_located ac f locs xs) as [Hs Hw].
  - apply chained_sorted; [|assumption].
    apply Forall_forall. intros a Ha. apply in_flat_map in Ha.
    destruct Ha as (x & Hx & Ha).
    specialize (Hne x (Hwl x Hx)). rewrite Forall_forall in Hne. auto.
  - rewrite Forall_forall in IH. apply Forall_forall. intros x Hx.
    apply (IH x Hx), Hwl, Hx.
  - split; [assumption|].
    eapply within_weaken; [|exact Hw].
    intros r a _ Ha Hra. exists l. split; [now left|].
    apply (loc_inside_trans _ a); [assumption|]. now apply Hin.
Qed.

Section Located.

Variable ac : bool.
Variable allowedProps : list string.

Let sorted := StronglySorted (emitOrder ac).

Lemma walk_located :
  (forall e, wellLocated e = true ->
             sorted (classify ac allowedProps e)
             /\ within [expression_loc e] (classify ac allowedProps e))
  /\ (forall s, wellLocatedSpread s = true ->
                sorted (reportDynamicInSpread ac s allowedProps [])
                /\ within [spread_loc s]
                          (reportDynamicInSpread ac s allowedProps []))
  /\ (forall p, wellLocatedMember p = true ->
                sorted (reportDynamicInProperty ac p allowedProps [])
                /\ within [member_loc p]
                          (reportDynamicInProperty ac p allowedProps []))
  /\ (forall x, wellLocatedElement x = true ->
                sorted (reportDynamicInElement ac x allowedProps [])
                /\ within (element_locs x)
                          (reportDynamicInElement ac x allowedProps [])).
Proof.
  assert (Hnil : forall ls, sorted [] /\ within ls []).
  { intros ls. split; constructor. }
  assert (Hone : forall n, loc_nonempty (node_loc n) = true ->
                           sorted [reportOf n]
                           /\ within [node_loc n] [reportOf n]).
  { intros n Hn. split; [apply sorted_single | now apply within_single]. }
  apply syntax_ind.
  - (* Identifier *)
    intros l n H. apply wellLocated_nonempty in H. unfold classify. simpl.
    destruct (includes allowedProps n); [apply Hnil|].
    apply (Hone (ExpressionNode (Identifier l n))), H.
  - (* Literal *)
    intros l v H. apply wellLocated_nonempty in H. unfold classify.
    destruct v; simpl; try apply Hnil;
      apply (Hone (ExpressionNode (Literal l _))), H.
  - (* MemberExpression *)
    intros l o p c _ _ H. apply wellLocated_nonempty in H.
    pose proof (Hone (ExpressionNode (MemberExpression l o p c)) H) as R.
    unfold classify.
    destruct o; try exact R. destruct p; try exact R. simpl.
    destruct (_ && _); [apply Hnil | exact R].
  - (* ObjectExpression *)
    intros l ps IH H. rewrite classify_object. simpl in H.
    apply andb_true_iff in H. destruct H as [_ H].
    apply andb_true_iff in H. destruct H as [H Hch].
    apply andb_true_iff in H. destruct H as [Hwl Hin].
    apply (entries_located ac _ (fun p => [member_loc p])
                           wellLocatedMember ps l).
    + exact IH.
    + intros p Hp. repeat constructor. now apply wellLocatedMember_nonempty.
    + exact Hwl.
    + now rewrite flat_map_singleton.
    + now rewrite flat_map_singleton.
  - (* ArrayExpression *)
    intros l es IH H. rewrite classify_array. simpl in H.
    apply andb_true_iff in H. destruct H as [_ H].
    apply andb_true_iff in H. destruct H as [H Hch].
    apply andb_true_iff in H. destruct H as [Hwl Hin].
    apply (entries_located ac _ element_locs wellLocatedElement es l);
      try assumption.
    apply wellLocatedElement_nonempty.
  - (* ConditionalExpression *)
    intros l t c a _ IHc IHa H. rewrite classify_conditional.
    pose proof (wellLocated_nonempty _ H) as Hne. simpl in H.
    destruct ac eqn:E;
      [|apply (Hone (ExpressionNode (ConditionalExpression l t c a))), Hne].
    apply andb_true_iff in H. destruct H as [_ H].
    repeat match type of H with
           | _ && _ = true =>
               let H' := fresh "H" in
               apply andb_true_iff in H; destruct H as [H H']
           end.
    destruct (IHc H1) as [Sc Wc]. destruct (IHa H0) as [Sa Wa].
    split.
    + apply StronglySorted_app; [assumption..|].
      intros ra rc Hra Hrc. unfold emitOrder. subst sorted. right.
      unfold within in Wc, Wa. rewrite Forall_forall in Wc, Wa.
      destruct (Wa ra Hra) as (_ & la & [<-|[]] & Hia).
      destruct (Wc rc Hrc) as (_ & lc & [<-|[]] & Hic).
      unfold reportBefore.
      now apply (loc_before_inside (expression_loc c) (expression_loc a)).
    + apply Forall_app. split.
      * now apply (within_parent (expression_loc a)).
      * now apply (within_parent (expression_loc c)).
  - (* OtherExpression *)
    intros l ty H. apply wellLocated_nonempty in H.
    apply (Hone (ExpressionNode (OtherExpression l ty))), H.
  - (* Spread *)
    intros l a IH H. simpl in H.
    apply andb_true_iff in H. destruct H as [H Hwa].
    apply andb_true_iff in H. destruct H as [_ Hin].
    destruct (isArrayOrObject a) eqn:E.
    + rewrite inSpread_literal by assumption.
      destruct (IH Hwa) as [S W]. split; [assumption|].
      now apply (within_parent (expression_loc a)).
    + rewrite inSpread_argument by assumption.
      destruct (Hone (ExpressionNode a) (wellLocated_nonempty _ Hwa))
        as [S W].
      split; [assumption|].
      now apply (within_parent (expression_loc a)).
  - (* Property *)
    intros l k v c m s _ IHv H.
    pose proof (wellLocatedMember_nonempty _ H) as Hne. simpl in H.
    apply andb_true_iff in H. destruct H as [H Hwv].
    apply andb_true_iff in H. destruct H as [H _].
    apply andb_true_iff in H. destruct H as [H _].
    apply andb_true_iff in H. destruct H as [_ Hin].
    simpl.
    destruct s; [apply Hnil|].
    destruct (c || m);
      [apply (Hone (PropertyNode (Property l k v c m false))), Hne|].
    destruct (isIdentifier k); [apply Hnil|].
    destruct (isStringLiteral k); [apply Hnil|].
    destruct (isIdentifier v); [apply Hnil|].
    destruct (IHv Hwv) as [S W]. split; [assumption|].
    now apply (within_parent (expression_loc v)).
  - (* SpreadProperty *) intros s IH H. apply IH, H.
  - (* Elision *) intros _. apply Hnil.
  - (* ElementExpression *) intros e IH H. apply IH, H.
  - (* ElementSpread *) intros s IH H. apply IH, H.
Qed.

End Located.

(* ================================================================== *)
(** ** Reports of a well-located tree have pairwise distinct locations *)

Lemma emitOrder_distinct ac a b :
  loc_nonempty (loc a) = true -> loc_nonempty (loc b) = true ->
  emitOrder ac a b -> loc a <> loc b.
Proof.
  intros Ha Hb H. unfold emitOrder, reportBefore in H.
  destruct ac; [destruct H as [H|H]|].
  - now apply loc_before_neq.
  - apply not_eq_sym. now apply loc_before_neq.
  - now apply loc_before_neq.
Qed.

Lemma sorted_distinct ac ls rs :
  StronglySorted (emitOrder ac) rs -> within ls rs -> NoDup (map loc rs).
Proof.
  induction 1 as [|r rs Hs IH Hr]; intros Hw; simpl; constructor.
  - inversion Hw as [|? ? [Hne _] Hw']; subst.
    intros Hin. apply in_map_iff in Hin. destruct Hin as (r' & E & Hr').
    rewrite Forall_forall in Hr. unfold within in Hw'.
    rewrite Forall_forall in Hw'.
    apply (emitOrder_distinct ac r r'); auto.
    now apply Hw'.
  - apply IH. now inversion Hw.
Qed.

Lemma reportsAt_none l rs : ~ In l (map loc rs) -> reportsAt l rs = [].
Proof.
  unfold reportsAt. induction rs as [|y rs IH]; simpl; intros H; [reflexivity|].
  destruct (loc_eqb (loc y) l) eqn:E.
  - apply loc_eqb_eq in E. exfalso. apply H. now left.
  - apply IH. intros Hin. apply H. now right.
Qed.

Lemma reportsAt_unique r rs :
  In r rs -> NoDup (map loc rs) -> reportsAt (loc r) rs = [r].
Proof.
  induction rs as [|x rs IH]; simpl; [contradiction|].
  intros [->|Hin] Hnd; inversion Hnd as [|? ? Hx Hnd']; subst;
    unfold reportsAt; simpl.
  - rewrite loc_eqb_refl. f_equal. now apply reportsAt_none.
  - destruct (loc_eqb (loc x) (loc r)) eqn:E; [|now apply IH].
    apply loc_eqb_eq in E. exfalso. apply Hx. rewrite E. now apply in_map.
Qed.

(* ================================================================== *)
(** ** Every identifier the walk reaches, and does not allow, is reported *)

Scheme Reaches_mut := Minimality for Reaches Sort Prop
  with ReachesSpread_mut := Minimality for ReachesSpread Sort Prop
  with ReachesMember_mut := Minimality for ReachesMember Sort Prop
  with ReachesElement_mut := Minimality for ReachesElement Sort Prop.

Combined Scheme Reaches_mutind
  from Reaches_mut, ReachesSpread_mut, ReachesMember_mut, ReachesElement_mut.

Lemma reached_reported ac allowedProps :
  (forall e n, Reaches ac e n -> unlistedIdentifier allowedProps n ->
               In (reportOf (ExpressionNode n)) (classify ac allowedProps e))
  /\ (forall s n, ReachesSpread ac s n -> unlistedIdentifier allowedProps n ->
                  In (reportOf (ExpressionNode n))
                     (reportDynamicInSpread ac s allowedProps []))
  /\ (forall p n, ReachesMember ac p n -> unlistedIdentifier allowedProps n ->
                  In (reportOf (ExpressionNode n))
                     (reportDynamicInProperty ac p allowedProps []))
  /\ (forall x n, ReachesElement ac x n -> unlistedIdentifier allowedProps n ->
                  In (reportOf (ExpressionNode n))
                     (reportDynamicInElement ac x allowedProps [])).
Proof.
  apply Reaches_mutind.
  - (* self *)
    intros e (l & name & -> & Hn). unfold classify. simpl. rewrite Hn.
    now left.
  - (* object *)
    intros l ps p n Hin _ IH Hn. rewrite classify_object.
    apply in_flat_map. exists p. auto.
  - (* array *)
    intros l es x n Hin _ IH Hn. rewrite classify_array.
    apply in_flat_map. exists x. auto.
  - (* consequent *)
    intros l t c a n -> _ IH Hn. rewrite classify_conditional.
    apply in_or_app. right. auto.
  - (* alternate *)
    intros l t c a n -> _ IH Hn. rewrite classify_conditional.
    apply in_or_app. left. auto.
  - (* spread of a literal *)
    intros l a n Ha _ IH Hn. rewrite inSpread_literal by assumption. auto.
  - (* spread argument *)
    intros l a Ha _. rewrite inSpread_argument by assumption. now left.
  - (* spread property *) intros s n _ IH Hn. simpl. auto.
  - (* property value *)
    intros l k v n Hk Hs Hv _ IH Hn. simpl. rewrite Hk, Hs, Hv. auto.
  - (* spread element *) intros s n _ IH Hn. simpl. auto.
  - (* element *) intros e n _ IH Hn. simpl. auto.
Qed.

(* ================================================================== *)
(** ** C1: unlisted identifiers are reported once *)

(** C1, as the specification states it, fails.  By the specification's
    rules the identifier [foo] of [{ 1: foo }] is the value of a property
    under a key that is neither an identifier nor a string literal, so
    the classification recurses into it and should report it; the walk
    skips every property value that is itself an identifier (line 170)
    and reports nothing. *)
Lemma C1_counterexample :
  wellLocated sample_numbered = true
  /\ SpecReaches false sample_numbered sample_foo
  /\ unlistedIdentifier ["class"] sample_foo
  /\ classify false ["class"] sample_numbered = []
  /\ reportsAt (expression_loc sample_foo)
               (classify false ["class"] sample_numbered)
     <> [reportOf (ExpressionNode sample_foo)].
Proof.
  split; [reflexivity|]. split.
  - eapply SpecReaches_value; [now left | reflexivity | reflexivity |].
    apply SpecReaches_self.
  - split; [now exists (span 5 8), "foo"|].
    split; [reflexivity | discriminate].
Qed.

(** C1 (amended): in a tree located as a parser locates it, every
    identifier occurrence whose name is not in the allowed list and that
    the walk reaches -- as the root, an array element, a branch of a
    conditional when [allowConditional] is set, the argument of a spread,
    or inside a non-identifier value under a key that is neither computed,
    an identifier nor a string literal -- is reported exactly once: the
    reports located at the identifier are the one report for it.  An
    identifier that is itself the value of an object property is skipped:
    the walk of such a property adds no report for it -- nothing at all,
    or, when the property is computed or a method and not shorthand, the
    one report for the property. *)
Theorem C1_reached_identifier_reported_once
        (ac : bool) (allowedProps : list string) :
  (forall e n,
      wellLocated e = true ->
      Reaches ac e n ->
      unlistedIdentifier allowedProps n ->
      reportsAt (expression_loc n) (classify ac allowedProps e)
      = [reportOf (ExpressionNode n)])
  /\ (forall l key lv name computed method shorthand sink,
         let property :=
           Property l key (Identifier lv name) computed method shorthand in
         reportDynamicInProperty ac property allowedProps sink
         = if reportedProperty property
           then sink ++ [reportOf (PropertyNode property)]
           else sink).
Proof.
  split.
  - intros e n Hwl Hreach Hn.
    destruct (walk_located ac allowedProps) as (Hloc & _).
    destruct (Hloc e Hwl) as [Hs Hw].
    apply (reportsAt_unique (reportOf (ExpressionNode n))).
    + now apply (reached_reported ac allowedProps).
    + exact (sorted_distinct ac _ _ Hs Hw).
  - intros l key lv name computed method shorthand sink. simpl.
    destruct shorthand; [reflexivity|]. simpl.
    destruct (computed || method); [reflexivity|].
    destruct (isIdentifier key); [reflexivity|].
    now destruct (isStringLiteral key).
Qed.

Lemma C1_reached_identifier_reported_once_witness :
  reportsAt (expression_loc sample_bar) (classify true ["class"] sample_nested)
  = [reportOf (ExpressionNode sample_bar)].
Proof.
  apply (proj1 (C1_reached_identifier_reported_once true ["class"])
               sample_nested sample_bar).
  - reflexivity.
  - eapply Reaches_array; [right; left; reflexivity|].
    apply ReachesElement_expression.
    eapply Reaches_object; [left; reflexivity|].
    apply ReachesMember_value; try reflexivity.
    eapply Reaches_array; [left; reflexivity|].
    apply ReachesElement_expression, Reaches_self.
  - exists (span 11 14), "bar". split; reflexivity.
Defined.

(* ================================================================== *)
(** ** C2: the test of an allowed conditional *)

(** C2, as stated, fails: with [allowConditional] set the walk descends
    into the alternate and the consequent only (lines 198-199), never
    into the test, so [cond ? "active" : ""] yields no report at all. *)
Lemma C2_counterexample :
  includes ["class"; "active"] "cond" = false
  /\ classify true ["class"; "active"] sample_toggle
     <> [reportOf (ExpressionNode sample_cond)]
  /\ List.length (classify true ["class"; "active"] sample_toggle) <> 1.
Proof. repeat split; discriminate. Qed.

(** C2 (amended): with [allowConditional = true] and the allowed names
    ["class"] and ["active"], classifying [cond ? "active" : ""] adds no
    report, whatever the identifier [cond] is: the test is not inspected
    and both branches are string literals.  So does a whole pass with the
    options [{ allowConditional: true, allowProps: true }] over a
    component that declares the prop [active] and binds the expression to
    [class]. *)
Theorem C2_conditional_test_not_inspected
        (isRegExp : string -> bool) (toRegExp : string -> option (string -> bool))
        (l lt lc la : SourceLocation) (cond : string) :
  let binding :=
    ConditionalExpression l (Identifier lt cond)
      (Literal lc (StringValue "active")) (Literal la (StringValue "")) in
  (forall sink,
      reportDynamicInExpression true binding ["class"; "active"] sink = sink)
  /\ lint isRegExp toRegExp toggleContext
          [DefinePropsEnter [ {| propName := Some "active" |} ];
           VAttributeEnter (VDirective bindClass (Some (Some binding)))]
     = Completed {| propNames := ["class"; "active"]; problems := [] |}.
Proof.
  intros binding. split.
  - intros sink. reflexivity.
  - unfold lint, create, withProps. simpl.
    unfold VAttributeHandler, isSatisfyList. simpl. reflexivity.
Qed.

(* ================================================================== *)
(** ** C3: the order of the reports *)

(** C3, as stated, fails: for [c ? x : y] with [allowConditional] set,
    the report for the alternate [y] is emitted before the report for the
    consequent [x], so the sink is not in left-to-right order. *)
Lemma C3_counterexample :
  wellLocated sample_choice = true
  /\ classify true ["class"] sample_choice
     = [reportOf (ExpressionNode sample_y); reportOf (ExpressionNode sample_x)]
  /\ ~ StronglySorted reportBefore (classify true ["class"] sample_choice).
Proof.
  split; [reflexivity|]. split; [reflexivity|].
  intros H. inversion H as [|? ? _ Hy]; subst.
  inversion Hy as [|? ? Hyx _]; subst.
  unfold reportBefore in Hyx. discriminate Hyx.
Qed.

(** C3 (amended): the sink is append-only and the reports of one tree
    follow the walk depth first: the entries of an object or an array
    contribute their reports in list order; with [allowConditional] unset
    the reports of a well-located tree are in left-to-right order of
    their locations; with [allowConditional] set, the reports of a
    conditional are those of its alternate followed by those of its
    consequent, although every report of the consequent lies to the left
    of every report of the alternate. *)
Theorem C3_reports_follow_the_walk
        (ac : bool) (allowedProps : list string) (e : Expression)
        (sink : Sink) :
  wellLocated e = true ->
  exists reports,
    reportDynamicInExpression ac e allowedProps sink = sink ++ reports
    /\ (ac = false -> StronglySorted reportBefore reports)
    /\ (forall l ps, e = ObjectExpression l ps ->
          reports
          = flat_map (fun p => reportDynamicInProperty ac p allowedProps [])
                     ps)
    /\ (forall l es, e = ArrayExpression l es ->
          reports
          = flat_map (fun x => reportDynamicInElement ac x allowedProps [])
                     es)
    /\ (forall l t c a, ac = true -> e = ConditionalExpression l t c a ->
          reports = classify ac allowedProps a ++ classify ac allowedProps c
          /\ forall ra rc, In ra (classify ac allowedProps a) ->
                           In rc (classify ac allowedProps c) ->
                           reportBefore rc ra).
Proof.
  intros Hwl. exists (classify ac allowedProps e).
  destruct (walk_located ac allowedProps) as (Hloc & _).
  split; [apply inExpression_emit|]. split; [|split; [|split]].
  - intros ->. exact (proj1 (Hloc e Hwl)).
  - intros l ps ->. apply classify_object.
  - intros l es ->. apply classify_array.
  - intros l t c a Hac ->. rewrite classify_conditional, Hac.
    split; [reflexivity|]. subst ac.
    simpl in Hwl. apply andb_true_iff in Hwl. destruct Hwl as [_ H].
    repeat match type of H with
           | _ && _ = true =>
               let H' := fresh "H" in
               apply andb_true_iff in H; destruct H as [H H']
           end.
    destruct (Hloc c H1) as [_ Wc]. destruct (Hloc a H0) as [_ Wa].
    intros ra rc Hra Hrc.
    unfold within in Wc, Wa. rewrite Forall_forall in Wc, Wa.
    destruct (Wa ra Hra) as (_ & la & [<-|[]] & Hia).
    destruct (Wc rc Hrc) as (_ & lc & [<-|[]] & Hic).
    unfold reportBefore.
    now apply (loc_before_inside (expression_loc c) (expression_loc a)).
Qed.

Lemma C3_reports_follow_the_walk_witness :
  exists reports,
    reportDynamicInExpression true sample_choice ["class"] [] = [] ++ reports
    /\ (true = false -> StronglySorted reportBefore reports)
    /\ (forall l ps, sample_choice = ObjectExpression l ps ->
          reports
          = flat_map (fun p => reportDynamicInProperty true p ["class"] []) ps)
    /\ (forall l es, sample_choice = ArrayExpression l es ->
          reports
          = flat_map (fun x => reportDynamicInElement true x ["class"] []) es)
    /\ (forall l t c a, true = true ->
          sample_choice = ConditionalExpression l t c a ->
          reports = classify true ["class"] a ++ classify true ["class"] c
          /\ forall ra rc, In ra (classify true ["class"] a) ->
                           In rc (classify true ["class"] c) ->
                           reportBefore rc ra).
Proof.
  apply (C3_reports_follow_the_walk true ["class"] sample_choice []).
  reflexivity.
Defined.

(* ================================================================== *)
(** ** C4: statically keyed object literals *)

Lemma staticallyKeyed_accepted ac allowedProps p sink :
  staticallyKeyed p = true ->
  reportDynamicInProperty ac p allowedProps sink = sink.
Proof.
  destruct p as [l k v computed method shorthand|s]; simpl; [|discriminate].
  intros H. apply andb_true_iff in H. destruct H as [H Hkey].
  apply andb_true_iff in H. destruct H as [Hc Hm].
  apply negb_true_iff in Hc, Hm. subst.
  destruct shorthand; [reflexivity|]. simpl in Hkey |- *.
  destruct (isIdentifier k); [reflexivity|]. simpl in Hkey.
  now rewrite Hkey.
Qed.

(** C4: an object literal whose properties are all non-spread, not
    computed, not methods, and shorthand or keyed by an identifier or a
    string literal adds no report, whatever the allowed names and
    whatever the values of the properties. *)
Theorem C4_static_keys_report_nothing
        (ac : bool) (allowedProps : list string) (l : SourceLocation)
        (properties : list ObjectMember) (sink : Sink) :
  forallb staticallyKeyed properties = true ->
  reportDynamicInExpression ac (ObjectExpression l properties)
                            allowedProps sink
  = sink.
Proof.
  change (reportDynamicInExpression ac (ObjectExpression l properties)
            allowedProps sink)
    with (reportDynamicInObject ac properties allowedProps sink).
  unfold reportDynamicInObject.
  revert sink. induction properties as [|p ps IH]; intros sink H; simpl.
  - reflexivity.
  - simpl in H. apply andb_true_iff in H. destruct H as [Hp Hps].
    rewrite (staticallyKeyed_accepted ac allowedProps p sink Hp).
    now apply IH.
Qed.

Lemma C4_static_keys_report_nothing_witness :
  reportDynamicInExpression false (ObjectExpression (span 0 43) sample_keyed)
                            ["class"] []
  = [].
Proof.
  apply (C4_static_keys_report_nothing false ["class"] (span 0 43)
           sample_keyed []).
  reflexivity.
Defined.

(* ================================================================== *)
(** ** C5: conditionals when [allowConditional] is unset *)

(** C5: when the [allowConditional] option resolves to [false], a
    conditional expression bound as the value of the attribute adds
    exactly one report, for the conditional as a whole; nothing is
    reported for its test or its branches. *)
Theorem C5_conditional_reported_whole
        (context : RuleContext) (key : VDirectiveKey) (l : SourceLocation)
        (test consequent alternate : Expression)
        (allowedProps : list string) (sink : Sink) :
  option_allowConditional context = false ->
  reportDynamic (option_allowConditional context)
    (VDirective key
       (Some (Some (ConditionalExpression l test consequent alternate))))
    allowedProps sink
  = sink ++ [reportOf (ExpressionNode
                         (ConditionalExpression l test consequent alternate))].
Proof. intros ->. reflexivity. Qed.

Lemma C5_conditional_reported_whole_witness :
  reportDynamic (option_allowConditional defaultContext)
    (VDirective bindClass (Some (Some sample_ternary))) ["class"] []
  = [] ++ [reportOf (ExpressionNode sample_ternary)].
Proof.
  apply (C5_conditional_reported_whole defaultContext bindClass (span 0 12)
           (Identifier (span 0 2) "ok")
           (Literal (span 5 8) (StringValue "a"))
           (Identifier (span 11 12) "b") ["class"] []).
  reflexivity.
Defined.

(* ================================================================== *)
(** ** C6: member accesses *)

Lemma allowedMember_spec allowedProps o p :
  allowedMember allowedProps o p
  <-> match o, p with
      | Identifier _ oname, Identifier _ pname =>
          includes ["$props"; "$attrs"] oname && includes allowedProps pname
          = true
      | _, _ => False
      end.
Proof.
  split.
  - intros (lo & oname & lp & pname & -> & -> & Ho & Hp).
    apply andb_true_iff. split; apply includes_In; [|assumption].
    destruct Ho as [->| ->]; simpl; auto.
  - destruct o as [lo oname| | | | | |]; try contradiction.
    destruct p as [lp pname| | | | | |]; try contradiction.
    intros H. apply andb_true_iff in H. destruct H as [Ho Hp].
    apply includes_In in Ho, Hp.
    exists lo, oname, lp, pname. repeat split; try assumption.
    destruct Ho as [<-|[<-|[]]]; auto.
Qed.

Lemma sink_grows (sink : Sink) (r : Report) : sink ++ [r] <> sink.
Proof.
  intros E. apply (f_equal (@List.length Report)) in E.
  rewrite length_app in E. simpl in E. lia.
Qed.

(** C6: a member access adds no report exactly when its object is the
    identifier [$props] or [$attrs] and its property is an identifier
    whose name is allowed; every other member access adds one report, for
    the member expression itself, and nothing for its object or
    property. *)
Theorem C6_member_access
        (ac : bool) (allowedProps : list string) (l : SourceLocation)
        (object property : Expression) (computed : bool) (sink : Sink) :
  let member := MemberExpression l object property computed in
  (reportDynamicInExpression ac member allowedProps sink = sink
   <-> allowedMember allowedProps object property)
  /\ (~ allowedMember allowedProps object property ->
      reportDynamicInExpression ac member allowedProps sink
      = sink ++ [reportOf (ExpressionNode member)]).
Proof.
  intros member.
  assert (Hcases :
            (allowedMember allowedProps object property
             /\ reportDynamicInExpression ac member allowedProps sink = sink)
            \/ (~ allowedMember allowedProps object property
                /\ reportDynamicInExpression ac member allowedProps sink
                   = sink ++ [reportOf (ExpressionNode member)])).
  { rewrite allowedMember_spec. subst member.
    destruct object; try (right; split; [tauto | reflexivity]).
    destruct property; try (right; split; [tauto | reflexivity]).
    simpl.
    destruct (_ && _); [left | right]; split;
      solve [reflexivity | discriminate]. }
  destruct Hcases as [[Ha E]|[Hn E]]; split.
  - tauto.
  - tauto.
  - split; [|tauto]. rewrite E. intros E'. now apply sink_grows in E'.
  - intros _. exact E.
Qed.

Lemma C6_member_access_witness :
  reportDynamicInExpression false
    (MemberExpression (span 0 9) (Identifier (span 0 4) "user")
                      (Identifier (span 5 9) "role") false)
    ["class"] []
  = [] ++ [reportOf (ExpressionNode
                       (MemberExpression (span 0 9)
                          (Identifier (span 0 4) "user")
                          (Identifier (span 5 9) "role") false))].
Proof.
  apply (proj2 (C6_member_access false ["class"] (span 0 9)
                  (Identifier (span 0 4) "user")
                  (Identifier (span 5 9) "role") false [])).
  intros (lo & oname & lp & pname & Eo & _ & [Ho|Ho] & _);
    injection Eo as _ <-; discriminate Ho.
Defined.

(* ================================================================== *)
(** ** C9: the walk is total *)

Lemma flat_map_bounded {A : Type} (f : A -> list Report) (size : A -> nat)
      (xs : list A) :
  Forall (fun x => List.length (f x) <= size x
                   /\ Forall wellFormedReport (f x)) xs ->
  List.length (flat_map f xs) <= list_sum (map size xs)
  /\ Forall wellFormedReport (flat_map f xs).
Proof.
  induction 1 as [|x xs [Hl Hw] _ [IHl IHw]]; simpl.
  - split; [lia | constructor].
  - rewrite length_app. split; [lia | now apply Forall_app].
Qed.

Lemma walk_bounded ac allowedProps :
  (forall e, List.length (classify ac allowedProps e) <= expression_size e
             /\ Forall wellFormedReport (classify ac allowedProps e))
  /\ (forall s,
         List.length (reportDynamicInSpread ac s allowedProps [])
         <= spread_size s
         /\ Forall wellFormedReport (reportDynamicInSpread ac s allowedProps []))
  /\ (forall p,
         List.length (reportDynamicInProperty ac p allowedProps [])
         <= member_size p
         /\ Forall wellFormedReport
                   (reportDynamicInProperty ac p allowedProps []))
  /\ (forall x,
         List.length (reportDynamicInElement ac x allowedProps [])
         <= element_size x
         /\ Forall wellFormedReport
                   (reportDynamicInElement ac x allowedProps [])).
Proof.
  assert (Hnil : forall k, List.length (@nil Report) <= k
                           /\ Forall wellFormedReport []).
  { intros k. split; [simpl; lia | constructor]. }
  assert (Hone : forall n k, 1 <= k ->
                             List.length [reportOf n] <= k
                             /\ Forall wellFormedReport [reportOf n]).
  { intros n k Hk. split; [exact Hk | repeat constructor]. }
  apply syntax_ind.
  - intros l n. unfold classify. simpl.
    destruct (includes allowedProps n); [apply Hnil | now apply Hone].
  - intros l v. unfold classify.
    destruct v; simpl; try apply Hnil; now apply Hone.
  - intros l o p c _ _.
    assert (R : List.length
                  [reportOf (ExpressionNode (MemberExpression l o p c))]
                <= expression_size (MemberExpression l o p c)
                /\ Forall wellFormedReport
                     [reportOf (ExpressionNode (MemberExpression l o p c))]).
    { apply Hone. simpl. lia. }
    unfold classify. destruct o; try exact R. destruct p; try exact R.
    simpl. destruct (_ && _); [apply Hnil | now apply Hone].
  - intros l ps IH. rewrite classify_object.
    destruct (flat_map_bounded _ member_size ps IH) as [Hl Hw].
    split; [simpl; lia | assumption].
  - intros l es IH. rewrite classify_array.
    destruct (flat_map_bounded _ element_size es IH) as [Hl Hw].
    split; [simpl; lia | assumption].
  - intros l t c a _ [Hc Wc] [Ha Wa]. rewrite classify_conditional.
    destruct ac; [|apply Hone; simpl; lia].
    rewrite length_app. split; [simpl; lia | now apply Forall_app].
  - intros l ty. now apply Hone.
  - intros l a [Ha Wa]. destruct (isArrayOrObject a) eqn:E.
    + rewrite inSpread_literal by assumption. split; [simpl; lia | assumption].
    + rewrite inSpread_argument by assumption. apply Hone. simpl. lia.
  - intros l k v c m s _ [Hv Wv]. simpl.
    destruct s; [apply Hnil|].
    destruct (c || m); [apply Hone; lia|].
    destruct (isIdentifier k); [apply Hnil|].
    destruct (isStringLiteral k); [apply Hnil|].
    destruct (isIdentifier v); [apply Hnil|].
    split; [fold (classify ac allowedProps v); lia | assumption].
  - intros s H. exact H.
  - apply Hnil.
  - intros e H. exact H.
  - intros s H. exact H.
Qed.

Lemma fallsThrough_reported ac allowedProps n :
  fallsThrough ac allowedProps n = true ->
  classify ac allowedProps n = [reportOf (ExpressionNode n)].
Proof.
  unfold classify.
  destruct n as [l name|l v|l o p c|l ps|l es|l t c a|l ty]; simpl;
    try discriminate; try reflexivity.
  - now destruct (includes allowedProps name).
  - now destruct v.
  - destruct o; try reflexivity. destruct p; try reflexivity.
    now destruct (_ && _).
  - now destruct ac.
Qed.

Lemma reached_dynamic ac allowedProps :
  (forall e n, Reaches ac e n -> fallsThrough ac allowedProps n = true ->
               In (reportOf (ExpressionNode n)) (classify ac allowedProps e))
  /\ (forall s n, ReachesSpread ac s n ->
                  fallsThrough ac allowedProps n = true ->
                  In (reportOf (ExpressionNode n))
                     (reportDynamicInSpread ac s allowedProps []))
  /\ (forall p n, ReachesMember ac p n ->
                  fallsThrough ac allowedProps n = true ->
                  In (reportOf (ExpressionNode n))
                     (reportDynamicInProperty ac p allowedProps []))
  /\ (forall x n, ReachesElement ac x n ->
                  fallsThrough ac allowedProps n = true ->
                  In (reportOf (ExpressionNode n))
                     (reportDynamicInElement ac x allowedProps [])).
Proof.
  apply Reaches_mutind.
  - intros e Hn. rewrite (fallsThrough_reported _ _ _ Hn). now left.
  - intros l ps p n Hin _ IH Hn. rewrite classify_object.
    apply in_flat_map. exists p. auto.
  - intros l es x n Hin _ IH Hn. rewrite classify_array.
    apply in_flat_map. exists x. auto.
  - intros l t c a n -> _ IH Hn. rewrite classify_conditional.
    apply in_or_app. right. auto.
  - intros l t c a n -> _ IH Hn. rewrite classify_conditional.
    apply in_or_app. left. auto.
  - intros l a n Ha _ IH Hn. rewrite inSpread_literal by assumption. auto.
  - intros l a Ha _. rewrite inSpread_argument by assumption. now left.
  - intros s n _ IH Hn. simpl. auto.
  - intros l k v n Hk Hs Hv _ IH Hn. simpl. rewrite Hk, Hs, Hv. auto.
  - intros s n _ IH Hn. simpl. auto.
  - intros e n _ IH Hn. simpl. auto.
Qed.

(** The reports of an array or object literal that the walk reaches are
    among the reports of the whole. *)
Lemma reached_literal_included ac allowedProps :
  (forall e n, Reaches ac e n -> isArrayOrObject n = true ->
               incl (classify ac allowedProps n) (classify ac allowedProps e))
  /\ (forall s n, ReachesSpread ac s n -> isArrayOrObject n = true ->
                  incl (classify ac allowedProps n)
                       (reportDynamicInSpread ac s allowedProps []))
  /\ (forall p n, ReachesMember ac p n -> isArrayOrObject n = true ->
                  incl (classify ac allowedProps n)
                       (reportDynamicInProperty ac p allowedProps []))
  /\ (forall x n, ReachesElement ac x n -> isArrayOrObject n = true ->
                  incl (classify ac allowedProps n)
                       (reportDynamicInElement ac x allowedProps [])).
Proof.
  apply Reaches_mutind.
  - intros e _. apply incl_refl.
  - intros l ps p n Hin _ IH Hn r Hr. rewrite classify_object.
    apply in_flat_map. exists p. split; [assumption | now apply IH].
  - intros l es x n Hin _ IH Hn r Hr. rewrite classify_array.
    apply in_flat_map. exists x. split; [assumption | now apply IH].
  - intros l t c a n -> _ IH Hn r Hr. rewrite classify_conditional.
    apply in_or_app. right. now apply IH.
  - intros l t c a n -> _ IH Hn r Hr. rewrite classify_conditional.
    apply in_or_app. left. now apply IH.
  - intros l a n Ha _ IH Hn. rewrite inSpread_literal by assumption. auto.
  - intros l a Ha Hn. congruence.
  - intros s n _ IH Hn. simpl. auto.
  - intros l k v n Hk Hs Hv _ IH Hn. simpl. rewrite Hk, Hs, Hv. auto.
  - intros s n _ IH Hn. simpl. auto.
  - intros e n _ IH Hn. simpl. auto.
Qed.

Lemma explained_through {T U : Type} (reach : T -> Expression -> Prop)
      (reach' : U -> Expression -> Prop) (t : T) (u : U) (r : Report) :
  (forall n, reach t n -> reach' u n) ->
  explained reach t r -> explained reach' u r.
Proof.
  intros H [(n & Hn & E)|(l & ps & p & Hn & Hp & Hrep & E)].
  - left. exists n. auto.
  - right. exists l, ps, p. auto.
Qed.

Lemma explained_self (ac : bool) (e : Expression) :
  explained (Reaches ac) e (reportOf (ExpressionNode e)).
Proof. left. exists e. split; [apply Reaches_self | reflexivity]. Qed.

(** Every report is for a node the walk reaches. *)
Lemma reports_explained ac allowedProps :
  (forall e r, In r (classify ac allowedProps e) ->
               explained (Reaches ac) e r)
  /\ (forall s r, In r (reportDynamicInSpread ac s allowedProps []) ->
                  explained (ReachesSpread ac) s r)
  /\ (forall p r, In r (reportDynamicInProperty ac p allowedProps []) ->
                  explained (ReachesMember ac) p r
                  \/ (reportedProperty p = true
                      /\ r = reportOf (PropertyNode p)))
  /\ (forall x r, In r (reportDynamicInElement ac x allowedProps []) ->
                  explained (ReachesElement ac) x r).
Proof.
  assert (Hone : forall e r, In r [reportOf (ExpressionNode e)] ->
                             explained (Reaches ac) e r).
  { intros e r [<-|[]]. apply explained_self. }
  apply syntax_ind.
  - intros l n r. unfold classify. simpl.
    destruct (includes allowedProps n); [intros [] | apply Hone].
  - intros l v r. unfold classify.
    destruct v; simpl; try apply Hone. intros [].
  - intros l o p c _ _ r. unfold classify.
    destruct o; try apply Hone. destruct p; try apply Hone. simpl.
    destruct (_ && _); [intros [] | apply Hone].
  - intros l ps IH r. rewrite classify_object, in_flat_map.
    intros (p & Hp & Hr). rewrite Forall_forall in IH.
    destruct (IH p Hp r Hr) as [H|[Hrep ->]].
    + apply (explained_through (ReachesMember ac) _ p); [|exact H].
      intros n Hn. now apply (Reaches_object ac l ps p).
    + right. exists l, ps, p. repeat split; auto. apply Reaches_self.
  - intros l es IH r. rewrite classify_array, in_flat_map.
    intros (x & Hx & Hr). rewrite Forall_forall in IH.
    apply (explained_through (ReachesElement ac) _ x); [|now apply IH].
    intros n Hn. now apply (Reaches_array ac l es x).
  - intros l t c a _ IHc IHa r. rewrite classify_conditional.
    destruct ac eqn:E; [|apply Hone].
    intros Hr. apply in_app_or in Hr. destruct Hr as [Hr|Hr].
    + apply (explained_through (Reaches true) _ a); [|now apply IHa].
      intros n Hn. now apply Reaches_alternate.
    + apply (explained_through (Reaches true) _ c); [|now apply IHc].
      intros n Hn. now apply Reaches_consequent.
  - intros l ty r. apply Hone.
  - intros l a IH r. destruct (isArrayOrObject a) eqn:E.
    + rewrite inSpread_literal by assumption. intros Hr.
      apply (explained_through (Reaches ac) _ a); [|now apply IH].
      intros n Hn. now apply ReachesSpread_literal.
    + rewrite inSpread_argument by assumption. intros [<-|[]].
      left. exists a. split; [now apply ReachesSpread_argument | reflexivity].
  - intros l k v c m s _ IH r. simpl.
    destruct s; [intros []|].
    destruct (c || m) eqn:Ecm.
    { intros [<-|[]]. right. split; [|reflexivity].
      destruct c, m; try reflexivity; discriminate Ecm. }
    apply orb_false_iff in Ecm. destruct Ecm as [-> ->].
    destruct (isIdentifier k) eqn:Ek; [intros []|].
    destruct (isStringLiteral k) eqn:Es; [intros []|].
    destruct (isIdentifier v) eqn:Ev; [intros []|].
    intros Hr. left.
    apply (explained_through (Reaches ac) _ v); [|now apply IH].
    intros n Hn. now apply ReachesMember_value.
  - intros s IH r Hr. left.
    apply (explained_through (ReachesSpread ac) _ s); [|now apply IH].
    intros n Hn. now apply ReachesMember_spread.
  - intros r [].
  - intros e IH r Hr.
    apply (explained_through (Reaches ac) _ e); [|now apply IH].
    intros n Hn. now apply ReachesElement_expression.
  - intros s IH r Hr.
    apply (explained_through (ReachesSpread ac) _ s); [|now apply IH].
    intros n Hn. now apply ReachesElement_spread.
Qed.

(** C9: the walk is total.  For every tree, allowed list and
    configuration, each of the mutually recursive functions returns the
    sink it was given followed by finitely many reports -- at most one per
    node of the tree, each a well-formed report -- and so does the
    attribute-level entry point; an expression of a type the rule does
    not name, and a literal that is not a string, fall through to one
    report for that expression.  Every node the walk reaches has its
    outcome: an expression that falls through (an unlisted identifier, a
    literal that is not a string, a member access that is not allowed, a
    conditional when [allowConditional] is off, any type the rule does
    not name) is reported, wherever it is reached; so is every computed
    or method property of an object literal that is reached, and every
    spread argument that is not an array or object literal; and nothing
    else is: every report is for a reached expression or for such a
    property of a reached object literal.  The entry point reports what
    the walk of the bound expression reports. *)
Theorem C9_walk_total (ac : bool) (allowedProps : list string) :
  (forall e sink, exists reports,
      reportDynamicInExpression ac e allowedProps sink = sink ++ reports
      /\ List.length reports <= expression_size e
      /\ Forall wellFormedReport reports)
  /\ (forall s sink, exists reports,
         reportDynamicInSpread ac s allowedProps sink = sink ++ reports
         /\ List.length reports <= spread_size s
         /\ Forall wellFormedReport reports)
  /\ (forall ps sink, exists reports,
         reportDynamicInObject ac ps allowedProps sink = sink ++ reports
         /\ List.length reports <= list_sum (map member_size ps)
         /\ Forall wellFormedReport reports)
  /\ (forall es sink, exists reports,
         reportDynamicInArray ac es allowedProps sink = sink ++ reports
         /\ List.length reports <= list_sum (map element_size es)
         /\ Forall wellFormedReport reports)
  /\ (forall c a sink, exists reports,
         reportDynamicInConditional ac c a allowedProps sink = sink ++ reports
         /\ List.length reports <= expression_size c + expression_size a
         /\ Forall wellFormedReport reports)
  /\ (forall attribute sink, exists reports,
         reportDynamic ac attribute allowedProps sink = sink ++ reports
         /\ Forall wellFormedReport reports)
  /\ (forall l type sink,
         reportDynamicInExpression ac (OtherExpression l type)
                                   allowedProps sink
         = sink ++ [reportOf (ExpressionNode (OtherExpression l type))])
  /\ (forall l value sink,
         match value with
         | StringValue _ => True
         | _ => reportDynamicInExpression ac (Literal l value)
                                          allowedProps sink
                = sink ++ [reportOf (ExpressionNode (Literal l value))]
         end)
  /\ (forall e n,
         Reaches ac e n -> fallsThrough ac allowedProps n = true ->
         In (reportOf (ExpressionNode n)) (classify ac allowedProps e))
  /\ (forall e l ps p,
         Reaches ac e (ObjectExpression l ps) -> In p ps ->
         reportedProperty p = true ->
         In (reportOf (PropertyNode p)) (classify ac allowedProps e))
  /\ (forall e l es l' a,
         Reaches ac e (ArrayExpression l es) ->
         In (ElementSpread (Spread l' a)) es ->
         isArrayOrObject a = false ->
         In (reportOf (ExpressionNode a)) (classify ac allowedProps e))
  /\ (forall e l ps l' a,
         Reaches ac e (ObjectExpression l ps) ->
         In (SpreadProperty (Spread l' a)) ps ->
         isArrayOrObject a = false ->
         In (reportOf (ExpressionNode a)) (classify ac allowedProps e))
  /\ (forall e r,
         In r (classify ac allowedProps e) -> explained (Reaches ac) e r)
  /\ (forall key e sink,
         reportDynamic ac (VDirective key (Some (Some e))) allowedProps sink
         = sink ++ classify ac allowedProps e).
Proof.
  destruct (walk_bounded ac allowedProps) as (He & Hs & Hp & Hx).
  repeat apply conj.
  - intros e sink. exists (classify ac allowedProps e).
    split; [apply inExpression_emit | apply He].
  - intros s sink. exists (reportDynamicInSpread ac s allowedProps []).
    split; [apply inSpread_emit | apply Hs].
  - intros ps sink.
    exists (flat_map (fun p => reportDynamicInProperty ac p allowedProps [])
                     ps).
    split; [apply inObject_emit|].
    apply flat_map_bounded, Forall_forall. intros p _. apply Hp.
  - intros es sink.
    exists (flat_map (fun x => reportDynamicInElement ac x allowedProps [])
                     es).
    split; [apply inArray_emit|].
    apply flat_map_bounded, Forall_forall. intros x _. apply Hx.
  - intros c a sink.
    exists (classify ac allowedProps a ++ classify ac allowedProps c).
    split; [|split].
    + unfold reportDynamicInConditional.
      rewrite inExpression_emit, (inExpression_emit ac allowedProps a sink).
      now rewrite app_assoc.
    + rewrite length_app. destruct (He c), (He a). lia.
    + apply Forall_app. split; [apply (He a) | apply (He c)].
  - intros attribute sink.
    destruct attribute as [k [v|]|k [[e|]|]]; simpl;
      try (exists []; split; [now rewrite app_nil_r | constructor]).
    exists (classify ac allowedProps e).
    split; [apply inExpression_emit | apply He].
  - reflexivity.
  - intros l value sink. destruct value; simpl; auto.
  - intros e n. apply (reached_dynamic ac allowedProps).
  - intros e l ps p Hreach Hin Hrep.
    apply (proj1 (reached_literal_included ac allowedProps) e
                 (ObjectExpression l ps) Hreach eq_refl).
    rewrite classify_object. apply in_flat_map. exists p.
    split; [assumption|].
    destruct p as [lp k v c m s|sp]; [|discriminate]. simpl in Hrep |- *.
    destruct s; [discriminate|]. simpl in Hrep. rewrite Hrep. now left.
  - intros e l es l' a Hreach Hin Ha.
    apply (proj1 (reached_literal_included ac allowedProps) e
                 (ArrayExpression l es) Hreach eq_refl).
    rewrite classify_array. apply in_flat_map.
    exists (ElementSpread (Spread l' a)). split; [assumption|].
    cbn [reportDynamicInElement]. rewrite inSpread_argument by assumption.
    now left.
  - intros e l ps l' a Hreach Hin Ha.
    apply (proj1 (reached_literal_included ac allowedProps) e
                 (ObjectExpression l ps) Hreach eq_refl).
    rewrite classify_object. apply in_flat_map.
    exists (SpreadProperty (Spread l' a)). split; [assumption|].
    cbn [reportDynamicInProperty]. rewrite inSpread_argument by assumption.
    now left.
  - apply (reports_explained ac allowedProps).
  - intros key e sink. apply inExpression_emit.
Qed.

Lemma C9_walk_total_witness :
  In (reportOf (ExpressionNode sample_call))
     (classify false ["class"] sample_mixed)
  /\ In (reportOf (PropertyNode sample_computed))
        (classify false ["class"] sample_mixed).
Proof.
  destruct (C9_walk_total false ["class"])
    as (_ & _ & _ & _ & _ & _ & _ & _ & Hdyn & Hprop & _).
  split.
  - apply (Hdyn sample_mixed sample_call); [|reflexivity].
    eapply Reaches_array; [left; reflexivity|].
    apply ReachesElement_expression, Reaches_self.
  - apply (Hprop sample_mixed (span 6 16) [sample_computed] sample_computed);
      [|now left|reflexivity].
    eapply Reaches_array; [right; left; reflexivity|].
    apply ReachesElement_expression, Reaches_self.
Defined.

(* ================================================================== *)
(** ** The listener over the events of a file *)

Section RuleProperties.

Variable isRegExp : string -> bool.
Variable toRegExp : string -> option (string -> bool).
Variable context : RuleContext.

Let listener := fst (create isRegExp toRegExp context emptyStore).

Lemma create_without_props st :
  defineTemplateBodyVisitor context = true ->
  option_allowProps context = false ->
  create isRegExp toRegExp context st
  = (templateBodyVisitor
       (VAttributeHandler isRegExp toRegExp context propNames),
     {| propNames := ["class"]; problems := problems st |}).
Proof.
  intros Hd Hp. unfold create, withProps. now rewrite Hd, Hp.
Qed.

Lemma create_store :
  snd (create isRegExp toRegExp context emptyStore)
  = if defineTemplateBodyVisitor context
    then {| propNames := ["class"]; problems := [] |}
    else emptyStore.
Proof.
  unfold create, withProps.
  destruct (defineTemplateBodyVisitor context); [|reflexivity]. simpl.
  now destruct (Bool.eqb _ _).
Qed.

Lemma handler_watched props node st :
  VAttributeHandler isRegExp toRegExp context props node st
  = if gateThrows isRegExp toRegExp context node then None
    else Some (if watched isRegExp toRegExp context node
               then {| propNames := propNames st;
                       problems :=
                         reportDynamic (option_allowConditional context)
                                       node (props st) (problems st) |}
               else st).
Proof.
  unfold VAttributeHandler, watched, gateThrows.
  destruct (getName node); [|reflexivity].
  now destruct (isSatisfyList _ _ _ _) as [[|]|].
Qed.

Lemma dispatch_created st event :
  dispatch listener st event
  = if negb (defineTemplateBodyVisitor context) then Some st
    else match event with
         | VAttributeEnter node =>
             VAttributeHandler isRegExp toRegExp context propNames node st
         | DefinePropsEnter props | VueObjectEnter props =>
             Some (if option_allowProps context
                   then pushPropNames props st else st)
         end.
Proof.
  subst listener. unfold create, withProps.
  destruct (negb (defineTemplateBodyVisitor context)); [now destruct event|].
  destruct (option_allowProps context); destruct event; reflexivity.
Qed.

Lemma deliver_created st event :
  deliver listener (Completed st) event
  = if throwsOn isRegExp toRegExp context event then Threw st
    else Completed (advance isRegExp toRegExp context st event).
Proof.
  unfold deliver. rewrite dispatch_created. unfold throwsOn, advance.
  destruct (defineTemplateBodyVisitor context); simpl;
    [|now destruct event].
  destruct event; try reflexivity.
  rewrite handler_watched. now destruct (gateThrows _ _ _ _).
Qed.

Lemma deliver_threw st events :
  fold_left (deliver listener) events (Threw st) = Threw st.
Proof. induction events; simpl; auto. Qed.

Lemma lint_unfold events :
  lint isRegExp toRegExp context events
  = fold_left (deliver listener) events
              (Completed (snd (create isRegExp toRegExp context emptyStore))).
Proof.
  subst listener. unfold lint.
  now destruct (create isRegExp toRegExp context emptyStore).
Qed.

Lemma lint_snoc events event :
  lint isRegExp toRegExp context (events ++ [event])
  = deliver listener (lint isRegExp toRegExp context events) event.
Proof. rewrite !lint_unfold. now rewrite fold_left_app. Qed.

Lemma reportDynamic_emit ac node allowedProps sink :
  reportDynamic ac node allowedProps sink
  = sink ++ reportDynamic ac node allowedProps [].
Proof.
  destruct node as [k v|k [[e|]|]]; simpl;
    try (now rewrite app_nil_r); try (now destruct v; rewrite app_nil_r).
  apply inExpression_emit.
Qed.

Lemma advance_propNames st event :
  propNames (advance isRegExp toRegExp context st event)
  = propNames st
    ++ (if defineTemplateBodyVisitor context && option_allowProps context
        then declaredPropNames event else []).
Proof.
  unfold advance.
  destruct (defineTemplateBodyVisitor context); simpl;
    [|now rewrite app_nil_r].
  destruct event; simpl.
  - now destruct (option_allowProps context); simpl; rewrite ?app_nil_r.
  - now destruct (option_allowProps context); simpl; rewrite ?app_nil_r.
  - destruct (option_allowProps context), (watched _ _ _ _); simpl;
      now rewrite app_nil_r.
Qed.

Lemma advance_problems st event :
  exists reports,
    problems (advance isRegExp toRegExp context st event)
    = problems st ++ reports.
Proof.
  unfold advance.
  destruct (negb (defineTemplateBodyVisitor context));
    [exists []; now rewrite app_nil_r|].
  destruct event as [props|props|node].
  - exists []. rewrite app_nil_r. now destruct (option_allowProps context).
  - exists []. rewrite app_nil_r. now destruct (option_allowProps context).
  - destruct (watched _ _ _ _); [|exists []; now rewrite app_nil_r].
    simpl. rewrite reportDynamic_emit. eauto.
Qed.

Lemma advance_all_propNames events st :
  propNames (fold_left (advance isRegExp toRegExp context) events st)
  = propNames st
    ++ (if defineTemplateBodyVisitor context && option_allowProps context
        then flat_map declaredPropNames events else []).
Proof.
  revert st. induction events as [|event events IH]; intros st; simpl.
  - now destruct (_ && _); rewrite app_nil_r.
  - rewrite IH, advance_propNames.
    destruct (_ && _); now rewrite <- app_assoc.
Qed.

(** A pass ends with the store its handled events lead to, and it
    completes exactly when every event is handled. *)
Lemma run_handled events st :
  storeOf (fold_left (deliver listener) events (Completed st))
  = fold_left (advance isRegExp toRegExp context)
              (handled isRegExp toRegExp context events) st
  /\ (forall st', fold_left (deliver listener) events (Completed st)
                  = Completed st' ->
                  handled isRegExp toRegExp context events = events).
Proof.
  revert st. induction events as [|event events IH]; intros st;
    cbn [fold_left handled].
  - split; reflexivity.
  - rewrite deliver_created.
    destruct (throwsOn isRegExp toRegExp context event).
    + rewrite deliver_threw. split; [reflexivity | discriminate].
    + destruct (IH (advance isRegExp toRegExp context st event)) as [Hs Hc].
      split; [exact Hs|]. intros st' E. now rewrite (Hc st' E).
Qed.

Lemma lint_propNames events :
  defineTemplateBodyVisitor context = true ->
  propNames (storeOf (lint isRegExp toRegExp context events))
  = allowedAfter context (handled isRegExp toRegExp context events).
Proof.
  intros Hd. rewrite lint_unfold.
  rewrite (proj1 (run_handled events _)), advance_all_propNames.
  rewrite create_store, Hd. reflexivity.
Qed.

Lemma lint_completed events st :
  lint isRegExp toRegExp context events = Completed st ->
  handled isRegExp toRegExp context events = events.
Proof.
  rewrite lint_unfold. apply (proj2 (run_handled events _)).
Qed.

Lemma handled_component_events events :
  existsb isComponentEvent events = false ->
  flat_map declaredPropNames (handled isRegExp toRegExp context events) = [].
Proof.
  induction events as [|event events IH]; simpl; [reflexivity|].
  intros H. apply orb_false_iff in H. destruct H as [He Hs].
  destruct (throwsOn isRegExp toRegExp context event); [reflexivity|].
  destruct event; try discriminate. simpl. now apply IH.
Qed.

End RuleProperties.

(* ================================================================== *)
(** ** C7: ["class"] is always watched and always allowed first *)

Lemma names_class context : In "class" (names context).
Proof.
  unfold names. destruct (includes (option_classAttrNames context) "class")
    eqn:E; simpl.
  - now apply includes_In.
  - apply in_or_app. right. now left.
Qed.

(** C7: for every configuration ["class"] is one of the watched names
    (and the name ["class"] satisfies the watched-name list, without any
    pattern being compiled); and whenever the rule installs its listener
    -- in particular with [allowProps] enabled -- the array of allowed
    names starts with ["class"] at every moment of the pass, that array
    being what the attribute callback passes to the classification. *)
Theorem C7_class_watched_and_first
        (isRegExp : string -> bool) (toRegExp : string -> option (string -> bool))
        (context : RuleContext) :
  In "class" (names context)
  /\ isSatisfyList isRegExp toRegExp (names context) "class" = Some true
  /\ (defineTemplateBodyVisitor context = true ->
      forall events, exists rest,
        propNames (storeOf (lint isRegExp toRegExp context events))
        = "class" :: rest)
  /\ (forall events node,
         let before := lint isRegExp toRegExp context events in
         let after := lint isRegExp toRegExp context
                           (events ++ [VAttributeEnter node]) in
         after = before
         \/ exists st,
             before = Completed st
             /\ after = match VAttributeHandler isRegExp toRegExp context
                                                propNames node st with
                        | Some st' => Completed st'
                        | None => Threw st
                        end).
Proof.
  split; [apply names_class|]. split; [|split].
  - unfold isSatisfyList.
    now rewrite (proj2 (includes_In _ _) (names_class context)).
  - intros Hd events. rewrite lint_propNames by assumption.
    unfold allowedAfter. eauto.
  - intros events node. simpl. rewrite lint_snoc.
    destruct (lint isRegExp toRegExp context events) as [st|st];
      [|now left].
    unfold deliver. rewrite dispatch_created.
    destruct (negb (defineTemplateBodyVisitor context)); [now left|].
    right. exists st. split; reflexivity.
Qed.

Lemma C7_class_watched_and_first_witness :
  exists rest,
    propNames (storeOf (lint (fun _ => false) (fun _ => None) propsContext
                             [DefinePropsEnter
                                [ {| propName := Some "active" |} ]]))
    = "class" :: rest.
Proof.
  apply (proj1 (proj2 (proj2 (C7_class_watched_and_first
                                (fun _ => false) (fun _ => None)
                                propsContext)))).
  reflexivity.
Defined.

(* ================================================================== *)
(** ** C8: the prop collector *)

Lemma stringPropNames_spec props s :
  In s (stringPropNames props)
  <-> exists p, In p props /\ propName p = Some s.
Proof.
  unfold stringPropNames. rewrite in_flat_map. split.
  - intros (name & Hin & Hs). apply in_map_iff in Hin.
    destruct Hin as (p & <- & Hp). exists p. split; [assumption|].
    destruct (propName p) as [s'|]; [|contradiction].
    destruct Hs as [->|[]]. reflexivity.
  - intros (p & Hp & E). exists (Some s). split; [|now left].
    rewrite <- E. now apply in_map.
Qed.

(** C8: when the rule installs its listener, then with [allowProps] off
    the allowed names are exactly ["class"] and no component callback is
    installed; with [allowProps] on they are ["class"] followed by the
    prop names declared by the script-setup and options-object events
    that were handled (all the events, when the pass completes), in the
    order of the events, a prop name that is not a string being left
    out; and without any such event they are just ["class"]. *)
Theorem C8_prop_collector
        (isRegExp : string -> bool) (toRegExp : string -> option (string -> bool))
        (context : RuleContext) :
  defineTemplateBodyVisitor context = true ->
  (option_allowProps context = false ->
   onDefinePropsEnter (fst (create isRegExp toRegExp context emptyStore))
   = None
   /\ onVueObjectEnter (fst (create isRegExp toRegExp context emptyStore))
      = None
   /\ forall events,
       propNames (storeOf (lint isRegExp toRegExp context events))
       = ["class"])
  /\ (option_allowProps context = true ->
      forall events,
        propNames (storeOf (lint isRegExp toRegExp context events))
        = "class" :: flat_map declaredPropNames
                              (handled isRegExp toRegExp context events)
        /\ forall st,
            lint isRegExp toRegExp context events = Completed st ->
            propNames st = "class" :: flat_map declaredPropNames events)
  /\ (forall props s,
         In s (stringPropNames props)
         <-> exists p, In p props /\ propName p = Some s)
  /\ (forall events,
         existsb isComponentEvent events = false ->
         propNames (storeOf (lint isRegExp toRegExp context events))
         = ["class"]).
Proof.
  intros Hd. split; [|split; [|split]].
  - intros Hp. rewrite (create_without_props _ _ _ _ Hd Hp).
    repeat split. intros events. rewrite lint_propNames by assumption.
    unfold allowedAfter. now rewrite Hp.
  - intros Hp events.
    assert (H : propNames (storeOf (lint isRegExp toRegExp context events))
                = "class" :: flat_map declaredPropNames
                                      (handled isRegExp toRegExp context
                                               events)).
    { rewrite lint_propNames by assumption. unfold allowedAfter.
      now rewrite Hp. }
    split; [exact H|]. intros st E.
    rewrite E, (lint_completed _ _ _ _ _ E) in H. exact H.
  - apply stringPropNames_spec.
  - intros events Hnone. rewrite lint_propNames by assumption.
    unfold allowedAfter. rewrite handled_component_events by assumption.
    now destruct (option_allowProps context).
Qed.

Lemma C8_prop_collector_witness :
  propNames (storeOf
               (lint (fun _ => false) (fun _ => None) propsContext
                     [DefinePropsEnter [ {| propName := Some "active" |};
                                         {| propName := None |} ];
                      VueObjectEnter [ {| propName := Some "size" |} ]]))
  = "class" :: flat_map declaredPropNames
                        (handled (fun _ => false) (fun _ => None) propsContext
                           [DefinePropsEnter
                              [ {| propName := Some "active" |};
                                {| propName := None |} ];
                            VueObjectEnter [ {| propName := Some "size" |} ]]).
Proof.
  exact (proj1 (proj1 (proj2 (C8_prop_collector
                                (fun _ => false) (fun _ => None)
                                propsContext eq_refl))
                      eq_refl
                      [DefinePropsEnter [ {| propName := Some "active" |};
                                          {| propName := None |} ];
                       VueObjectEnter [ {| propName := Some "size" |} ]])).
Defined.

(* ================================================================== *)
(** ** C10: the names of directives *)

(** C10: a directive has a name only when it is [v-bind] with a static
    identifier argument, the name being that (non-empty) argument; any
    other directive, and a [v-bind] without such an argument, has none,
    is never matched against the watched names, and leaves the store and
    the pass as they were, whatever its value. *)
Theorem C10_directive_names
        (isRegExp : string -> bool) (toRegExp : string -> option (string -> bool))
        (key : VDirectiveKey) (value : option (option Expression)) :
  (forall name,
      getName (VDirective key value) = Some name
      <-> directive_name key = "bind"
          /\ argument key = Some (VIdentifierArgument name)
          /\ name <> "")
  /\ (getName (VDirective key value) = None ->
      (forall context props st,
          VAttributeHandler isRegExp toRegExp context props
                            (VDirective key value) st
          = Some st)
      /\ forall context events,
          lint isRegExp toRegExp context
               (events ++ [VAttributeEnter (VDirective key value)])
          = lint isRegExp toRegExp context events).
Proof.
  split.
  - intros name. simpl. destruct (String.eqb_spec (directive_name key) "bind")
      as [Hb|Hb].
    + destruct (argument key) as [[arg|e]|].
      * destruct (String.eqb_spec arg "") as [He|He]; split.
        -- discriminate.
        -- intros (_ & E & Hn). injection E as <-. contradiction.
        -- intros E. injection E as <-. auto.
        -- intros (_ & E & _). now injection E as <-.
      * split; [discriminate | intros (_ & E & _); discriminate].
      * split; [discriminate | intros (_ & E & _); discriminate].
    + split; [discriminate | intros (E & _); contradiction].
  - intros Hnone.
    assert (Hh : forall context props st,
               VAttributeHandler isRegExp toRegExp context props
                                 (VDirective key value) st = Some st).
    { intros context props st. unfold VAttributeHandler.
      now rewrite Hnone. }
    split; [exact Hh|].
    intros context events. rewrite lint_snoc.
    destruct (lint isRegExp toRegExp context events) as [st|st];
      [|reflexivity].
    unfold deliver. rewrite dispatch_created.
    destruct (negb (defineTemplateBodyVisitor context)); [reflexivity|].
    now rewrite Hh.
Qed.

Lemma C10_directive_names_witness :
  VAttributeHandler (fun _ => false) (fun _ => None) defaultContext
    propNames
    (VDirective {| directive_name := "on";
                   argument := Some (VIdentifierArgument "click") |}
                (Some (Some sample_ternary)))
    emptyStore
  = Some emptyStore.
Proof.
  apply (proj1 (proj2 (C10_directive_names
                         (fun _ => false) (fun _ => None)
                         {| directive_name := "on";
                            argument := Some (VIdentifierArgument "click") |}
                         (Some (Some sample_ternary)))
                      eq_refl)).
Defined.

(* ================================================================== *)
(** ** Comparing two walks of the same tree

    A relation between report lists that holds of the empty lists and of
    equal singletons, is kept by concatenation, and holds at the three
    shapes whose outcome depends on the configuration, holds between the
    reports of any tree under the two configurations. *)

Section RelatedWalks.

Variable ac1 ac2 : bool.
Variable allowed1 allowed2 : list string.
Variable R : list Report -> list Report -> Prop.

Hypothesis R_nil : R [] [].
Hypothesis R_one : forall r, R [r] [r].
Hypothesis R_app :
  forall xs xs' ys ys', R xs ys -> R xs' ys' -> R (xs ++ xs') (ys ++ ys').
Hypothesis R_identifier :
  forall l n, R (classify ac1 allowed1 (Identifier l n))
                (classify ac2 allowed2 (Identifier l n)).
Hypothesis R_member :
  forall l o p c, R (classify ac1 allowed1 (MemberExpression l o p c))
                    (classify ac2 allowed2 (MemberExpression l o p c)).
Hypothesis R_conditional :
  forall l t c a,
    R (classify ac1 allowed1 c) (classify ac2 allowed2 c) ->
    R (classify ac1 allowed1 a) (classify ac2 allowed2 a) ->
    R (classify ac1 allowed1 (ConditionalExpression l t c a))
      (classify ac2 allowed2 (ConditionalExpression l t c a)).

Lemma flat_map_related {A : Type} (f g : A -> list Report) (xs : list A) :
  Forall (fun x => R (f x) (g x)) xs -> R (flat_map f xs) (flat_map g xs).
Proof.
  induction 1 as [|x xs Hx _ IH]; simpl; [exact R_nil | now apply R_app].
Qed.

Lemma walk_related :
  (forall e, R (classify ac1 allowed1 e) (classify ac2 allowed2 e))
  /\ (forall s, R (reportDynamicInSpread ac1 s allowed1 [])
                  (reportDynamicInSpread ac2 s allowed2 []))
  /\ (forall p, R (reportDynamicInProperty ac1 p allowed1 [])
                  (reportDynamicInProperty ac2 p allowed2 []))
  /\ (forall x, R (reportDynamicInElement ac1 x allowed1 [])
                  (reportDynamicInElement ac2 x allowed2 [])).
Proof.
  apply syntax_ind.
  - exact R_identifier.
  - intros l v. unfold classify. destruct v; simpl;
      solve [apply R_nil | apply R_one].
  - intros l o p c _ _. apply R_member.
  - intros l ps IH. rewrite !classify_object. now apply flat_map_related.
  - intros l es IH. rewrite !classify_array. now apply flat_map_related.
  - intros l t c a _ Hc Ha. now apply R_conditional.
  - intros l ty. apply R_one.
  - intros l a IH. destruct (isArrayOrObject a) eqn:E.
    + now rewrite !inSpread_literal by assumption.
    + rewrite !inSpread_argument by assumption. apply R_one.
  - intros l k v c m s _ IH. simpl.
    destruct s; [apply R_nil|].
    destruct (c || m); [apply R_one|].
    destruct (isIdentifier k); [apply R_nil|].
    destruct (isStringLiteral k); [apply R_nil|].
    destruct (isIdentifier v); [apply R_nil|].
    exact IH.
  - intros s IH. exact IH.
  - exact R_nil.
  - intros e IH. exact IH.
  - intros s IH. exact IH.
Qed.

End RelatedWalks.

(* ================================================================== *)
(** ** The allowed list only matters through membership *)

Lemma includes_same_members (a b : list string) :
  (forall x, In x a <-> In x b) -> forall x, includes a x = includes b x.
Proof.
  intros H x. destruct (includes a x) eqn:Ea, (includes b x) eqn:Eb;
    try reflexivity.
  - apply includes_In, H, includes_In in Ea. congruence.
  - apply includes_In, H, includes_In in Eb. congruence.
Qed.

(** X1: The reports of an expression, and of an attribute, are the same for
    two allowed lists with the same members: order and repetitions in
    [propNames] make no difference. *)
Theorem allowed_names_matter_by_membership
        (ac : bool) (a b : list string) :
  (forall x, In x a <-> In x b) ->
  (forall e sink,
      reportDynamicInExpression ac e a sink
      = reportDynamicInExpression ac e b sink)
  /\ (forall attribute sink,
         reportDynamic ac attribute a sink = reportDynamic ac attribute b sink).
Proof.
  intros H. pose proof (includes_same_members a b H) as Hi.
  assert (He : forall e, classify ac a e = classify ac b e).
  { apply (walk_related ac ac a b eq); try reflexivity.
    - intros; congruence.
    - intros l n. unfold classify. simpl. now rewrite Hi.
    - intros l o p c. unfold classify.
      destruct o; try reflexivity. destruct p; try reflexivity.
      simpl. now rewrite Hi.
    - intros l t c x Hc Hx. rewrite !classify_conditional.
      destruct ac; congruence. }
  assert (Hs : forall e sink,
             reportDynamicInExpression ac e a sink
             = reportDynamicInExpression ac e b sink).
  { intros e sink. now rewrite !inExpression_emit, He. }
  split; [exact Hs|].
  intros [k v|k [[e|]|]] sink; simpl; auto.
Qed.

Lemma allowed_names_matter_by_membership_witness :
  reportDynamic true
    (VDirective bindClass (Some (Some sample_nested)))
    ["class"; "bar"] []
  = reportDynamic true
      (VDirective bindClass (Some (Some sample_nested)))
      ["bar"; "class"; "bar"] [].
Proof.
  assert (H : forall x, In x ["class"; "bar"] <-> In x ["bar"; "class"; "bar"])
    by (intros x; simpl; tauto).
  exact (proj2 (allowed_names_matter_by_membership
                  true ["class"; "bar"] ["bar"; "class"; "bar"] H)
               (VDirective bindClass (Some (Some sample_nested))) []).
Defined.

(* ================================================================== *)
(** ** Allowing more names never adds a report *)

Lemma fewerReports_app xs xs' ys ys' :
  fewerReports xs ys -> fewerReports xs' ys' ->
  fewerReports (xs ++ xs') (ys ++ ys').
Proof.
  intros [Hi Hl] [Hi' Hl']. split.
  - now apply incl_app_app.
  - rewrite !length_app. lia.
Qed.

Lemma fewerReports_refl xs : fewerReports xs xs.
Proof. split; [apply incl_refl | lia]. Qed.

Lemma fewerReports_nil xs : fewerReports [] xs.
Proof. split; [intros r [] | simpl; lia]. Qed.

(** X2: When every name of [a] is also in [b], each report under the allowed
    list [b] is already a report under [a], and there are no more of
    them: declaring further props can only remove reports. *)
Theorem more_allowed_names_fewer_reports
        (ac : bool) (a b : list string) (e : Expression) :
  incl a b ->
  fewerReports (classify ac b e) (classify ac a e).
Proof.
  intros H.
  assert (Hi : forall x, includes a x = true -> includes b x = true).
  { intros x Hx. apply includes_In. apply H. now apply includes_In. }
  apply (walk_related ac ac b a fewerReports).
  - apply fewerReports_refl.
  - intros r. apply fewerReports_refl.
  - apply fewerReports_app.
  - intros l n. unfold classify. simpl.
    destruct (includes a n) eqn:Ea.
    + rewrite (Hi n Ea). apply fewerReports_refl.
    + destruct (includes b n);
        [apply fewerReports_nil | apply fewerReports_refl].
  - intros l o p c. unfold classify.
    destruct o as [lo oname| | | | | |]; try apply fewerReports_refl.
    destruct p as [lp pname| | | | | |]; try apply fewerReports_refl. simpl.
    destruct (includes a pname) eqn:Ea.
    + rewrite (Hi _ Ea). apply fewerReports_refl.
    + rewrite andb_false_r.
      destruct (_ && _);
        [apply fewerReports_nil | apply fewerReports_refl].
  - intros l t c x Hc Hx. rewrite !classify_conditional.
    destruct ac; [now apply fewerReports_app | apply fewerReports_refl].
Qed.

Lemma more_allowed_names_fewer_reports_witness :
  fewerReports (classify true ["class"; "bar"] sample_nested)
               (classify true ["class"] sample_nested).
Proof.
  apply (more_allowed_names_fewer_reports true ["class"] ["class"; "bar"]
           sample_nested).
  intros x [<-|[]]. now left.
Defined.

(* ================================================================== *)
(** ** Switching [allowConditional] on never rejects an accepted tree *)

(** X3: An expression that yields no report with [allowConditional] off
    yields none with it on. *)
Theorem allowConditional_keeps_accepted
        (allowedProps : list string) (e : Expression) :
  classify false allowedProps e = [] ->
  classify true allowedProps e = [].
Proof.
  apply (walk_related true false allowedProps allowedProps
                      (fun xs ys => ys = [] -> xs = [])).
  - auto.
  - auto.
  - intros xs xs' ys ys' H H' E. apply app_eq_nil in E. destruct E as [E E'].
    now rewrite (H E), (H' E').
  - intros l n E. exact E.
  - intros l o p c E. exact E.
  - intros l t c a _ _. rewrite !classify_conditional. discriminate.
Qed.

Lemma allowConditional_keeps_accepted_witness :
  classify true ["class"]
           (ObjectExpression (span 0 43) sample_keyed) = [].
Proof.
  apply (allowConditional_keeps_accepted ["class"]
           (ObjectExpression (span 0 43) sample_keyed)).
  reflexivity.
Defined.

(* ================================================================== *)
(** ** Reports lie inside the bound expression, no two at one place *)

(** X4: In a tree located as a parser locates it, every report is located
    inside the expression that was classified, and no two reports share
    a location. *)
Theorem reports_inside_and_distinct
        (ac : bool) (allowedProps : list string) (e : Expression) :
  wellLocated e = true ->
  Forall (fun r => loc_inside (loc r) (expression_loc e) = true)
         (classify ac allowedProps e)
  /\ NoDup (map loc (classify ac allowedProps e)).
Proof.
  intros Hwl.
  destruct (walk_located ac allowedProps) as (Hloc & _).
  destruct (Hloc e Hwl) as [Hs Hw]. split.
  - eapply Forall_impl; [|exact Hw].
    intros r (_ & l & [<-|[]] & Hin). exact Hin.
  - exact (sorted_distinct ac _ _ Hs Hw).
Qed.

Lemma reports_inside_and_distinct_witness :
  Forall (fun r => loc_inside (loc r) (expression_loc sample_nested) = true)
         (classify true ["class"] sample_nested)
  /\ NoDup (map loc (classify true ["class"] sample_nested)).
Proof.
  apply (reports_inside_and_distinct true ["class"] sample_nested).
  reflexivity.
Defined.

(* ================================================================== *)
(** ** Spreads *)

Lemma flat_map_inlined {A : Type} (f : A -> list Report)
      (inline : A -> list A) (xs : list A) :
  (forall x, flat_map f (inline x) = f x) ->
  flat_map f (flat_map inline xs) = flat_map f xs.
Proof.
  intros H. induction xs as [|x xs IH]; simpl; [reflexivity|].
  now rewrite flat_map_app, H, IH.
Qed.

(** X5: An array literal spread inside an array literal, and an object
    literal spread inside an object literal, can be written out in
    place: [[a, ...[b, c], d]] reports what [[a, b, c, d]] reports, and
    [{ ...{ [k]: v }, w }] what [{ [k]: v, w }] reports. *)
Theorem spread_literals_inline
        (ac : bool) (allowedProps : list string) (l : SourceLocation) :
  (forall es,
      classify ac allowedProps
               (ArrayExpression l (flat_map inlineArraySpread es))
      = classify ac allowedProps (ArrayExpression l es))
  /\ (forall ps,
         classify ac allowedProps
                  (ObjectExpression l (flat_map inlineObjectSpread ps))
         = classify ac allowedProps (ObjectExpression l ps)).
Proof.
  split.
  - intros es. rewrite !classify_array. apply flat_map_inlined.
    intros [|e|[l' a]].
    + reflexivity.
    + apply app_nil_r.
    + destruct a as [ | | | |l'' es'| | ]; cbn [inlineArraySpread flat_map];
        try apply app_nil_r.
      symmetry. apply (classify_array ac allowedProps l'').
  - intros ps. rewrite !classify_object. apply flat_map_inlined.
    intros [lp k v c m sh|[l' a]].
    + apply app_nil_r.
    + destruct a as [ | | |l'' ps'| | | ]; cbn [inlineObjectSpread flat_map];
        try apply app_nil_r.
      symmetry. apply (classify_object ac allowedProps l'').
Qed.

(* ================================================================== *)
(** ** Array and object literals report entry by entry *)

Lemma flat_map_entries (f : ArrayElement -> list Report) (es : list ArrayElement) :
  f Elision = [] -> flat_map f (filter isEntry es) = flat_map f es.
Proof.
  intros H. induction es as [|x es IH]; simpl; [reflexivity|].
  destruct x; simpl; rewrite IH; try reflexivity. now rewrite H.
Qed.

(** X6: The reports of an array (object) literal are those of its elements
    (properties) in order: a literal of two runs of entries reports what
    the two runs report, one after the other, wherever the literals are
    located; and the elisions of an array add nothing. *)
Theorem literals_report_entry_by_entry
        (ac : bool) (allowedProps : list string)
        (l l1 l2 : SourceLocation) :
  (forall es1 es2,
      classify ac allowedProps (ArrayExpression l (es1 ++ es2))
      = classify ac allowedProps (ArrayExpression l1 es1)
        ++ classify ac allowedProps (ArrayExpression l2 es2))
  /\ (forall ps1 ps2,
         classify ac allowedProps (ObjectExpression l (ps1 ++ ps2))
         = classify ac allowedProps (ObjectExpression l1 ps1)
           ++ classify ac allowedProps (ObjectExpression l2 ps2))
  /\ (forall es,
         classify ac allowedProps (ArrayExpression l (filter isEntry es))
         = classify ac allowedProps (ArrayExpression l es)).
Proof.
  repeat split; intros.
  - rewrite !classify_array. apply flat_map_app.
  - rewrite !classify_object. apply flat_map_app.
  - rewrite !classify_array. now apply flat_map_entries.
Qed.

(* ================================================================== *)
(** ** The watched-name list *)

Lemma compileAll_throws (toRegExp : string -> option (string -> bool))
      (patterns : list string) :
  compileAll toRegExp patterns = None
  <-> exists reg, In reg patterns /\ toRegExp reg = None.
Proof.
  induction patterns as [|reg rest IH]; simpl.
  - split; [discriminate | intros (reg & [] & _)].
  - destruct (toRegExp reg) as [regexp|] eqn:E.
    + destruct (compileAll toRegExp rest) as [regexps|].
      * split; [discriminate|]. intros (r & [<-|Hin] & Hr); [congruence|].
        assert (H : Some regexps = None) by (apply IH; eauto).
        discriminate H.
      * split; [|reflexivity]. intros _.
        destruct (proj1 IH eq_refl) as (r & Hin & Hr). eauto.
    + split; [|reflexivity]. intros _. exists reg. auto.
Qed.

Lemma compileAll_tests (toRegExp : string -> option (string -> bool))
      (patterns : list string) (regexps : list (string -> bool))
      (item : string) :
  compileAll toRegExp patterns = Some regexps ->
  existsb (fun regexp => regexp item) regexps = true
  <-> exists reg test, In reg patterns /\ toRegExp reg = Some test
                       /\ test item = true.
Proof.
  revert regexps. induction patterns as [|reg rest IH]; simpl; intros regexps.
  - intros [= <-]. simpl. split; [discriminate | intros (r & t & [] & _)].
  - destruct (toRegExp reg) as [regexp|] eqn:E; [|discriminate].
    destruct (compileAll toRegExp rest) as [rs|]; [|discriminate].
    intros [= <-]. simpl. rewrite orb_true_iff, (IH rs eq_refl). split.
    + intros [H|(r & t & Hin & Hr & Ht)]; [exists reg, regexp; auto|].
      exists r, t. auto.
    + intros (r & t & [<-|Hin] & Hr & Ht).
      * left. congruence.
      * right. eauto.
Qed.

(** X7: What [isSatisfyList] answers.  A name that is an entry of the
    list satisfies it, and no pattern is compiled for that.  For any
    other name every regular-expression entry is compiled first: the
    call throws exactly when one of them does not compile -- even if
    another entry would match -- and otherwise the name satisfies the
    list exactly when the test of one of those entries accepts it. *)
Theorem isSatisfyList_spec
        (isRegExp : string -> bool) (toRegExp : string -> option (string -> bool))
        (list : list string) (item : string) :
  (In item list -> isSatisfyList isRegExp toRegExp list item = Some true)
  /\ (~ In item list ->
      (isSatisfyList isRegExp toRegExp list item = None
       <-> exists reg, In reg list /\ isRegExp reg = true
                       /\ toRegExp reg = None)
      /\ (isSatisfyList isRegExp toRegExp list item = Some true
          <-> (forall reg, In reg list -> isRegExp reg = true ->
                           toRegExp reg <> None)
              /\ exists reg test, In reg list /\ isRegExp reg = true
                                  /\ toRegExp reg = Some test
                                  /\ test item = true)).
Proof.
  unfold isSatisfyList. split.
  - intros Hin. now rewrite (proj2 (includes_In _ _) Hin).
  - intros Hout. destruct (includes list item) eqn:E.
    { apply includes_In in E. contradiction. }
    destruct (compileAll toRegExp (filter isRegExp list)) as [regexps|] eqn:C.
    + assert (Hall : forall reg, In reg list -> isRegExp reg = true ->
                                 toRegExp reg <> None).
      { intros reg Hin Hr Hnone.
        assert (H : compileAll toRegExp (filter isRegExp list) = None).
        { apply compileAll_throws. exists reg. split; [|assumption].
          apply filter_In. auto. }
        congruence. }
      split.
      * split; [discriminate|]. intros (reg & Hin & Hr & Hnone).
        now apply (Hall reg) in Hnone.
      * split.
        -- intros [= H]. split; [exact Hall|].
           apply (compileAll_tests _ _ _ item C) in H.
           destruct H as (reg & test & Hin & Hr & Ht).
           apply filter_In in Hin. exists reg, test. tauto.
        -- intros (_ & reg & test & Hin & Hr & Hc & Ht). f_equal.
           apply (compileAll_tests _ _ _ item C).
           exists reg, test. split; [apply filter_In|]; auto.
    + apply compileAll_throws in C. destruct C as (reg & Hin & Hnone).
      apply filter_In in Hin. split.
      * split; [|reflexivity]. intros _. exists reg. tauto.
      * split; [discriminate|]. intros (Hall & _).
        now apply (Hall reg) in Hnone.
Qed.

Lemma isSatisfyList_spec_witness :
  isSatisfyList sample_isRegExp sample_toRegExp
                ["/^cls-/"; "/(/"; "class"] "cls-a"
  = None.
Proof.
  assert (Hout : ~ In "cls-a" ["/^cls-/"; "/(/"; "class"])
    by (simpl; intuition discriminate).
  apply (proj2 (proj1 (proj2 (isSatisfyList_spec
                                sample_isRegExp sample_toRegExp
                                ["/^cls-/"; "/(/"; "class"] "cls-a")
                             Hout))).
  exists "/(/". repeat split. simpl. auto.
Defined.

(** X8: The watched names are the configured names, in their order,
    with ["class"] added at the end exactly when it is not configured:
    every configured name satisfies the list, and a configuration
    without repeated names gives a list without repeated names. *)
Theorem names_keep_configured
        (isRegExp : string -> bool) (toRegExp : string -> option (string -> bool))
        (context : RuleContext) :
  (In "class" (option_classAttrNames context) ->
   names context = option_classAttrNames context)
  /\ (~ In "class" (option_classAttrNames context) ->
      names context = option_classAttrNames context ++ ["class"])
  /\ (forall name, In name (option_classAttrNames context) ->
                   isSatisfyList isRegExp toRegExp (names context) name
                   = Some true)
  /\ (NoDup (option_classAttrNames context) -> NoDup (names context)).
Proof.
  assert (Hsat : forall name, In name (names context) ->
                              isSatisfyList isRegExp toRegExp
                                            (names context) name = Some true).
  { intros name Hin. unfold isSatisfyList.
    now rewrite (proj2 (includes_In _ _) Hin). }
  revert Hsat. unfold names.
  destruct (includes (option_classAttrNames context) "class") eqn:E; simpl;
    intros Hsat.
  - apply includes_In in E. repeat split; auto. intros H. contradiction.
  - assert (Hout : ~ In "class" (option_classAttrNames context)).
    { intros H. apply includes_In in H. congruence. }
    repeat split; auto.
    + intros H. contradiction.
    + intros name Hin. apply Hsat, in_or_app. now left.
    + intros Hnd. apply NoDup_app;
        [assumption | repeat constructor; intros [] |].
      intros x Hx [<-|[]]. contradiction.
Qed.

Lemma names_keep_configured_witness :
  NoDup (names {| options := [ {| classAttrNames := Some ["className"; "/^cls/"];
                                  allowConditional := None;
                                  allowProps := None |} ];
                  defineTemplateBodyVisitor := true |}).
Proof.
  apply (proj2 (proj2 (proj2 (names_keep_configured
                         (fun _ => false) (fun _ => None)
                         {| options := [ {| classAttrNames :=
                                              Some ["className"; "/^cls/"];
                                            allowConditional := None;
                                            allowProps := None |} ];
                            defineTemplateBodyVisitor := true |})))).
  simpl. repeat constructor; simpl; intuition discriminate.
Defined.

(* ================================================================== *)
(** ** One pass over the events of a file *)

(** X9: What visiting one attribute does to a pass that got that far.
    If the listener is installed and matching the attribute's name
    against the watched list throws, the pass is abandoned with the
    store as it was.  Otherwise, if the listener is installed and the
    attribute is watched, its value is classified against ["class"] and
    the props declared by the events that came before it (none when
    [allowProps] is off), the reports go after the problems found so
    far, and the allowed names are unchanged; in every other case the
    store is unchanged.  A pass that was already abandoned stays as it
    was. *)
Theorem attribute_classified_against_earlier_props
        (isRegExp : string -> bool) (toRegExp : string -> option (string -> bool))
        (context : RuleContext) (events : list Event) (node : Attribute) :
  lint isRegExp toRegExp context (events ++ [VAttributeEnter node])
  = match lint isRegExp toRegExp context events with
    | Threw st => Threw st
    | Completed st =>
        if defineTemplateBodyVisitor context
           && gateThrows isRegExp toRegExp context node
        then Threw st
        else Completed
               (if defineTemplateBodyVisitor context
                   && watched isRegExp toRegExp context node
                then {| propNames := propNames st;
                        problems :=
                          problems st
                          ++ reportDynamic (option_allowConditional context)
                                           node (allowedAfter context events)
                                           [] |}
                else st)
    end.
Proof.
  rewrite lint_snoc.
  destruct (lint isRegExp toRegExp context events) as [st|st] eqn:E;
    [|reflexivity].
  rewrite deliver_created. unfold throwsOn, advance.
  destruct (defineTemplateBodyVisitor context) eqn:Hd; simpl; [|reflexivity].
  destruct (gateThrows isRegExp toRegExp context node); [reflexivity|].
  destruct (watched isRegExp toRegExp context node); [|reflexivity].
  pose proof (lint_propNames isRegExp toRegExp context events Hd) as Hn.
  rewrite E, (lint_completed _ _ _ _ _ E) in Hn. simpl in Hn.
  now rewrite reportDynamic_emit, Hn.
Qed.

(** X10: The pass only appends: whatever events follow, the problems
    found and the names allowed so far stay, in place, at the front. *)
Theorem pass_only_appends
        (isRegExp : string -> bool) (toRegExp : string -> option (string -> bool))
        (context : RuleContext) (events more : list Event) :
  exists reports declared,
    problems (storeOf (lint isRegExp toRegExp context (events ++ more)))
    = problems (storeOf (lint isRegExp toRegExp context events)) ++ reports
    /\ propNames (storeOf (lint isRegExp toRegExp context (events ++ more)))
       = propNames (storeOf (lint isRegExp toRegExp context events))
         ++ declared.
Proof.
  induction more as [|event more IH] using rev_ind.
  - exists [], []. now rewrite !app_nil_r.
  - destruct IH as (reports & declared & Hp & Hn).
    rewrite app_assoc, lint_snoc.
    destruct (lint isRegExp toRegExp context (events ++ more)) as [st|st];
      simpl in Hp, Hn; [|simpl; eauto].
    rewrite deliver_created.
    destruct (throwsOn isRegExp toRegExp context event); [simpl; eauto|].
    simpl. rewrite advance_propNames, Hn.
    destruct (advance_problems isRegExp toRegExp context st event)
      as (reports' & Hr).
    rewrite Hr, Hp, <- !app_assoc. eauto.
Qed.

Lemma deliver_component_ignored
      (isRegExp : string -> bool) (toRegExp : string -> option (string -> bool))
      (context : RuleContext) (outcome : Outcome) (event : Event) :
  option_allowProps context = false ->
  isComponentEvent event = true ->
  deliver (fst (create isRegExp toRegExp context emptyStore)) outcome event
  = outcome.
Proof.
  intros Hp He. destruct outcome as [st|st]; [|reflexivity].
  rewrite deliver_created. unfold throwsOn, advance. rewrite Hp.
  destruct event; try discriminate; now destruct (negb _).
Qed.

(** X11: With [allowProps] off the component events are not listened
    to: the pass ends as the pass over the attribute events alone. *)
Theorem component_events_ignored_without_allowProps
        (isRegExp : string -> bool) (toRegExp : string -> option (string -> bool))
        (context : RuleContext) (events : list Event) :
  option_allowProps context = false ->
  lint isRegExp toRegExp context events
  = lint isRegExp toRegExp context
         (filter (fun event => negb (isComponentEvent event)) events).
Proof.
  intros Hp. induction events as [|event events IH] using rev_ind;
    [reflexivity|].
  rewrite filter_app, lint_snoc.
  destruct (isComponentEvent event) eqn:He; simpl; rewrite He; simpl.
  - rewrite app_nil_r, <- IH. now apply deliver_component_ignored.
  - now rewrite lint_snoc, <- IH.
Qed.

Lemma component_events_ignored_without_allowProps_witness :
  lint (fun _ => false) (fun _ => None) defaultContext
       [DefinePropsEnter [ {| propName := Some "b" |} ];
        VAttributeEnter (VDirective bindClass (Some (Some sample_ternary)))]
  = lint (fun _ => false) (fun _ => None) defaultContext
         (filter (fun event => negb (isComponentEvent event))
                 [DefinePropsEnter [ {| propName := Some "b" |} ];
                  VAttributeEnter
                    (VDirective bindClass (Some (Some sample_ternary)))]).
Proof.
  apply (component_events_ignored_without_allowProps
           (fun _ => false) (fun _ => None) defaultContext).
  reflexivity.
Defined.

(** X12: Without [parserServices.defineTemplateBodyVisitor] the rule
    listens to nothing: the pass completes and no event changes the
    store. *)
Theorem no_template_visitor_no_effect
        (isRegExp : string -> bool) (toRegExp : string -> option (string -> bool))
        (context : RuleContext) (events : list Event) :
  defineTemplateBodyVisitor context = false ->
  lint isRegExp toRegExp context events = Completed emptyStore.
Proof.
  intros Hd. induction events as [|event events IH] using rev_ind.
  - unfold lint, create. now rewrite Hd.
  - rewrite lint_snoc, IH, deliver_created. unfold throwsOn, advance.
    rewrite Hd. now destruct event.
Qed.

Lemma no_template_visitor_no_effect_witness :
  lint (fun _ => false) (fun _ => None)
       {| options := []; defineTemplateBodyVisitor := false |}
       [VAttributeEnter (VDirective bindClass (Some (Some sample_ternary)))]
  = Completed emptyStore.
Proof.
  apply (no_template_visitor_no_effect
           (fun _ => false) (fun _ => None)
           {| options := []; defineTemplateBodyVisitor := false |}).
  reflexivity.
Defined.

(** X13: A pass in which every attribute either carries no expression (a
    plain attribute, a directive without value or with an empty
    container) or is not watched finds no problem, whatever the options
    and the props declared. *)
Theorem static_or_unwatched_attributes_report_nothing
        (isRegExp : string -> bool) (toRegExp : string -> option (string -> bool))
        (context : RuleContext) (events : list Event) :
  (forall node, In (VAttributeEnter node) events ->
                withoutExpression node
                || negb (watched isRegExp toRegExp context node) = true) ->
  problems (storeOf (lint isRegExp toRegExp context events)) = [].
Proof.
  induction events as [|event events IH] using rev_ind; intros H.
  - rewrite lint_unfold, create_store. simpl.
    now destruct (defineTemplateBodyVisitor context).
  - assert (IH' : problems (storeOf (lint isRegExp toRegExp context events))
                  = []).
    { apply IH. intros node Hin. apply H, in_or_app. now left. }
    rewrite lint_snoc.
    destruct (lint isRegExp toRegExp context events) as [st|st];
      simpl in IH'; [|exact IH'].
    rewrite deliver_created.
    destruct (throwsOn isRegExp toRegExp context event); [exact IH'|].
    simpl. unfold advance.
    destruct (negb (defineTemplateBodyVisitor context)); [exact IH'|].
    destruct event as [props|props|node].
    + now destruct (option_allowProps context).
    + now destruct (option_allowProps context).
    + assert (Hn : In (VAttributeEnter node) (events ++ [VAttributeEnter node]))
        by (apply in_or_app; right; now left).
      specialize (H node Hn).
      destruct (watched isRegExp toRegExp context node); [|exact IH'].
      rewrite orb_false_r in H. simpl. rewrite IH'.
      destruct node as [k v|k [[e|]|]]; simpl in *;
        try reflexivity; try discriminate. now destruct v.
Qed.

Lemma static_or_unwatched_attributes_report_nothing_witness :
  problems (storeOf
              (lint (fun _ => false) (fun _ => None) defaultContext
                    [VAttributeEnter (VAttribute "class" (Some "static-name"));
                     VAttributeEnter
                       (VDirective {| directive_name := "bind";
                                      argument :=
                                        Some (VIdentifierArgument "title") |}
                                   (Some (Some sample_ternary)))]))
  = [].
Proof.
  apply (static_or_unwatched_attributes_report_nothing
           (fun _ => false) (fun _ => None) defaultContext).
  intros node [E|[E|[]]]; injection E as <-; reflexivity.
Defined.

(* ================================================================== *)
(** ** The rule registry *)

Lemma objectGet_setOwn (obj : Registry.JsObject) (key value key' : string) :
  Registry.objectGet (Registry.setOwn obj key value) key'
  = if (key =? key')%string then Some value else Registry.objectGet obj key'.
Proof.
  induction obj as [|[k v] obj IH]; simpl.
  - reflexivity.
  - destruct (String.eqb_spec k key) as [->|Hk]; simpl.
    + destruct (String.eqb_spec key key'); reflexivity.
    + rewrite IH. destruct (String.eqb_spec k key') as [->|Hk'];
        [|reflexivity].
      destruct (String.eqb_spec key key'); [congruence | reflexivity].
Qed.

Lemma objectGet_objectSet (obj : Registry.JsObject) (key value key' : string) :
  Registry.objectGet (Registry.objectSet obj key value) key'
  = if negb (key =? "__proto__")%string && (key =? key')%string
    then Some value else Registry.objectGet obj key'.
Proof.
  unfold Registry.objectSet.
  destruct (key =? "__proto__")%string; simpl; [reflexivity|].
  apply objectGet_setOwn.
Qed.

Lemma setOwn_keys (obj : Registry.JsObject) (key value : string) :
  NoDup (map fst obj) -> NoDup (map fst (Registry.setOwn obj key value)).
Proof.
  induction obj as [|[k v] obj IH]; simpl; intros H.
  - repeat constructor. intros [].
  - inversion H as [|? ? Hk Hrest]; subst.
    destruct (String.eqb_spec k key) as [->|Hne]; simpl;
      [now constructor|].
    constructor; [|now apply IH].
    intros Hin. apply Hk. clear -Hin Hne.
    induction obj as [|[k' v'] obj IHo]; simpl in *.
    + destruct Hin as [E|[]]. congruence.
    + destruct (String.eqb_spec k' key); simpl in Hin; [exact Hin|].
      destruct Hin as [E|Hin]; [now left | right; now apply IHo].
Qed.

Lemma objectSet_keys (obj : Registry.JsObject) (key value : string) :
  NoDup (map fst obj) -> NoDup (map fst (Registry.objectSet obj key value)).
Proof.
  unfold Registry.objectSet. destruct (key =? "__proto__")%string;
    [auto | apply setOwn_keys].
Qed.

(** X14: What [collectRules] builds from an array of rules: looking up
    an own property gives the level ([default], or ["error"] when it is
    missing or empty) of the last rule that is not deprecated and whose
    [ruleId] (or [""] when missing) is that key, and nothing if there is
    no such rule; a rule whose [ruleId] is [__proto__] is recorded
    nowhere, as the assignment creates no own property; deprecated rules
    leave no trace; no key occurs twice. *)
Theorem collectRules_lookup (rules : list Registry.Rule) (key : string) :
  Registry.objectGet (Registry.collectRulesFrom rules) key
  = option_map Registry.ruleLevel
      (find (fun rule => Registry.notDeprecated rule
                         && (negb (Registry.ruleKey rule =? "__proto__")%string
                             && (Registry.ruleKey rule =? key)%string))
            (rev rules))
  /\ Registry.objectGet (Registry.collectRulesFrom rules) "__proto__" = None
  /\ Registry.collectRulesFrom rules
     = Registry.collectRulesFrom (filter Registry.notDeprecated rules)
  /\ NoDup (map fst (Registry.collectRulesFrom rules)).
Proof.
  assert (Hget : forall key',
             Registry.objectGet (Registry.collectRulesFrom rules) key'
             = option_map Registry.ruleLevel
                 (find (fun rule =>
                          Registry.notDeprecated rule
                          && (negb (Registry.ruleKey rule
                                    =? "__proto__")%string
                              && (Registry.ruleKey rule =? key')%string))
                       (rev rules))).
  { intros key'. unfold Registry.collectRulesFrom.
    induction rules as [|rule rules IH] using rev_ind; [reflexivity|].
    rewrite fold_left_app, rev_app_distr. simpl.
    destruct (Registry.notDeprecated rule); simpl; [|exact IH].
    rewrite objectGet_objectSet.
    destruct (negb _ && _); [reflexivity | exact IH]. }
  split; [apply Hget|]. split; [|split].
  - rewrite Hget. clear Hget.
    induction (rev rules) as [|rule rest IH]; simpl; [reflexivity|].
    destruct (Registry.notDeprecated rule); simpl; [|exact IH].
    destruct (String.eqb_spec (Registry.ruleKey rule) "__proto__");
      simpl; exact IH.
  - clear Hget. unfold Registry.collectRulesFrom.
    induction rules as [|rule rules IH] using rev_ind; [reflexivity|].
    rewrite filter_app, fold_left_app. simpl.
    destruct (Registry.notDeprecated rule) eqn:E; simpl.
    + rewrite fold_left_app. simpl. now rewrite E, IH.
    + now rewrite app_nil_r.
  - clear Hget. unfold Registry.collectRulesFrom.
    induction rules as [|rule rules IH] using rev_ind; [constructor|].
    rewrite fold_left_app. simpl.
    destruct (Registry.notDeprecated rule); [|exact IH].
    now apply objectSet_keys.
Qed.

(* ================================================================== *)
(** ** The config presets *)

Lemma stripTs_unfold (s : string) :
  Presets.stripTs s
  = if (s =? ".ts")%string then EmptyString
    else match s with
         | EmptyString => EmptyString
         | String c rest => String c (Presets.stripTs rest)
         end.
Proof. destruct s; reflexivity. Qed.

Lemma append_ts_longer (c : Ascii.ascii) (p : string) :
  String c (p ++ ".ts") <> ".ts"%string.
Proof.
  intros E. injection E as _ E.
  destruct p as [|c1 p]; [discriminate|]. injection E as _ E.
  destruct p as [|c2 p]; [discriminate|]. injection E as _ E.
  destruct p; discriminate.
Qed.

(** X15: The name of a config is the file name without its final [.ts]: a
    name [p.ts] gives [p] (only one [.ts] is removed), and any name
    either ends in [.ts] and loses it or is kept as it is. *)
Theorem stripTs_removes_final_ts :
  (forall p, Presets.stripTs (p ++ ".ts") = p)
  /\ (forall s, (Presets.stripTs s ++ ".ts")%string = s
                \/ Presets.stripTs s = s /\ forall p, s <> (p ++ ".ts")%string).
Proof.
  assert (Hstrip : forall p, Presets.stripTs (p ++ ".ts") = p).
  { induction p as [|c p IH]; [reflexivity|].
    change (Presets.stripTs (String c (p ++ ".ts")) = String c p).
    rewrite stripTs_unfold.
    destruct (String.eqb_spec (String c (p ++ ".ts")) ".ts") as [E|_].
    - now apply append_ts_longer in E.
    - now rewrite IH. }
  split; [exact Hstrip|].
  induction s as [|c s IH]; rewrite stripTs_unfold.
  - right. split; [reflexivity|]. intros [|c p]; discriminate.
  - destruct (String.eqb_spec (String c s) ".ts") as [E|Hne].
    + left. now rewrite E.
    + destruct IH as [IH|[IH Hno]].
      * left. simpl. now rewrite IH.
      * right. split; [now rewrite IH|].
        intros [|c' p] E; [now apply Hne|].
        simpl in E. injection E as _ E. now apply (Hno p).
Qed.

Lemma readConfigs_snoc resolvePath load result dirent :
  Presets.readConfigs resolvePath load (result ++ [dirent])
  = Presets.readConfigs resolvePath load result
    ++ (if Presets.isFile dirent
        then [ {| Presets.name := Presets.stripTs (Presets.dirent_name dirent);
                  Presets.configId :=
                    ("plugin:vue-scoped-css/"
                       ++ Presets.stripTs (Presets.dirent_name dirent))%string;
                  Presets.config :=
                    load (resolvePath (Presets.dirent_name dirent));
                  Presets.path := resolvePath (Presets.dirent_name dirent);
                  Presets.extends := [] |} ]
        else []).
Proof.
  unfold Presets.readConfigs. rewrite fold_left_app. simpl.
  destruct (Presets.isFile dirent); simpl; [reflexivity|].
  now rewrite app_nil_r.
Qed.

(** X16: [readConfigs] gives one config per entry of the listing that is a
    file, in the order of the listing, and nothing for the other
    entries; each config is named after its file, identified by
    [plugin:vue-scoped-css/] followed by its name, holds the module
    loaded from its resolved path, and extends nothing yet. *)
Theorem readConfigs_one_config_per_file
        (resolvePath : string -> string)
        (load : string -> Presets.ConfigModule)
        (result : list Presets.Dirent) :
  let configs := Presets.readConfigs resolvePath load result in
  let files := filter Presets.isFile result in
  map Presets.name configs
  = map (fun d => Presets.stripTs (Presets.dirent_name d)) files
  /\ map Presets.path configs
     = map (fun d => resolvePath (Presets.dirent_name d)) files
  /\ Forall (fun c =>
               Presets.configId c
               = ("plugin:vue-scoped-css/" ++ Presets.name c)%string
               /\ Presets.config c = load (Presets.path c)
               /\ Presets.extends c = [])
            configs.
Proof.
  simpl. induction result as [|dirent result IH] using rev_ind.
  - repeat split. constructor.
  - destruct IH as (Hn & Hp & Hall).
    rewrite readConfigs_snoc, filter_app, !map_app, Hn, Hp. simpl.
    destruct (Presets.isFile dirent); simpl.
    + repeat split. apply Forall_app. split; [assumption|].
      repeat constructor.
    + rewrite !app_nil_r. now repeat split.
Qed.

Lemma findByPath_same_paths (a b : list Presets.Config) (p : string) :
  map Presets.path a = map Presets.path b ->
  Presets.findByPath a p = Presets.findByPath b p.
Proof.
  revert b. induction a as [|x a IH]; intros [|y b] E; try discriminate;
    [reflexivity|].
  simpl in E. injection E as Ex E. simpl. rewrite Ex, (IH b E). reflexivity.
Qed.

Lemma resolved_same_paths (a b : list Presets.Config) (c : Presets.Config) :
  map Presets.path a = map Presets.path b ->
  Presets.resolved a c = Presets.resolved b c.
Proof.
  intros E. unfold Presets.resolved. f_equal. apply map_ext.
  intros p. now apply findByPath_same_paths.
Qed.

Lemma update_middle (f : Presets.Config -> Presets.Config)
      (pre : list Presets.Config) (c : Presets.Config)
      (post : list Presets.Config) :
  Presets.update (List.length pre) f (pre ++ c :: post) = pre ++ f c :: post.
Proof. induction pre as [|x pre IH]; simpl; congruence. Qed.

Lemma linkConfigs_from (configs0 post pre : list Presets.Config) :
  map Presets.path (pre ++ post) = map Presets.path configs0 ->
  fold_left Presets.linkConfig
            (seq (List.length pre) (List.length post)) (pre ++ post)
  = pre ++ map (fun c => Presets.setExtends
                           c (Presets.resolved configs0 c)) post.
Proof.
  revert pre. induction post as [|c post IH]; intros pre E; [reflexivity|].
  simpl. unfold Presets.linkConfig at 2. rewrite update_middle.
  rewrite (resolved_same_paths _ configs0 c E).
  specialize (IH (pre ++ [Presets.setExtends
                            c (Presets.resolved configs0 c)])).
  rewrite <- !app_assoc, length_app in IH. simpl in IH.
  rewrite Nat.add_1_r in IH. apply IH.
  rewrite <- E, !map_app. reflexivity.
Qed.

(** X17: The linking loop gives every config the references its module's
    [extends] resolves to in the array as it was before the loop: an
    iteration reads only paths, which no iteration changes, so the
    outcome does not depend on which configs were linked before.  Names,
    ids, modules and paths are untouched. *)
Theorem linkConfigs_resolves_against_the_array
        (configs : list Presets.Config) :
  Presets.linkConfigs configs
  = map (fun c => Presets.setExtends c (Presets.resolved configs c)) configs.
Proof.
  exact (linkConfigs_from configs configs [] eq_refl).
Qed.

Lemma linkConfigs_map (configs : list Presets.Config) :
  Presets.linkConfigs configs
  = map (fun c => Presets.setExtends c (Presets.resolved configs c)) configs.
Proof.
  exact (linkConfigs_from configs configs [] eq_refl).
Qed.

Lemma findByPath_found (configs : list Presets.Config) (p : string) (i : nat) :
  Presets.findByPath configs p = Some i ->
  exists c, nth_error configs i = Some c /\ Presets.path c = p
            /\ forall j c', j < i -> nth_error configs j = Some c' ->
                            Presets.path c' <> p.
Proof.
  revert i. induction configs as [|x configs IH]; intros i; simpl;
    [discriminate|].
  destruct (String.eqb_spec (Presets.path x) p) as [E|Hne].
  - intros [= <-]. exists x. repeat split; [assumption|]. intros j c' Hj. lia.
  - destruct (Presets.findByPath configs p) as [k|]; [|discriminate].
    intros [= <-]. destruct (IH k eq_refl) as (c & Hc & Hp & Hfirst).
    exists c. repeat split; try assumption.
    intros [|j] c' Hj; simpl.
    + now intros [= <-].
    + apply Hfirst. lia.
Qed.

Lemma findByPath_missing (configs : list Presets.Config) (p : string) :
  Presets.findByPath configs p = None -> knownPath configs p = false.
Proof.
  unfold knownPath. induction configs as [|x configs IH]; simpl;
    [reflexivity|].
  destruct (Presets.path x =? p)%string; [discriminate|].
  destruct (Presets.findByPath configs p); [discriminate | exact IH].
Qed.

Lemma findByPath_known (configs : list Presets.Config) (p : string) (i : nat) :
  Presets.findByPath configs p = Some i -> knownPath configs p = true.
Proof.
  unfold knownPath. revert i.
  induction configs as [|x configs IH]; simpl; intros i; [discriminate|].
  destruct (Presets.path x =? p)%string; [reflexivity|].
  destruct (Presets.findByPath configs p) as [k|]; [|discriminate].
  intros _. now apply (IH k).
Qed.

(** X18: After linking, a config is what it was, with references added: the
    configs referred to have, in order, exactly the paths its module
    lists in [extends] that some config of the array has -- a listed
    path that no config has is dropped without complaint, a missing or
    empty [extends] gives no reference -- and each reference points to
    the first config with its path. *)
Theorem linked_references_follow_extends
        (configs : list Presets.Config) (k : nat) (c : Presets.Config) :
  nth_error (Presets.linkConfigs configs) k = Some c ->
  exists c0,
    nth_error configs k = Some c0
    /\ c = Presets.setExtends c0 (Presets.extends c)
    /\ map (pathOf configs) (Presets.extends c)
       = map Some (filter (knownPath configs) (Presets.extendsList c0))
    /\ Forall (fun i => forall j, j < i -> pathOf configs j <> pathOf configs i)
              (Presets.extends c).
Proof.
  rewrite linkConfigs_map, nth_error_map.
  destruct (nth_error configs k) as [c0|] eqn:Hk; [|discriminate].
  intros [= <-]. exists c0. split; [reflexivity|]. split; [reflexivity|].
  simpl. unfold Presets.resolved, Presets.filterDefined.
  induction (Presets.extendsList c0) as [|p ps [IHp IHf]]; simpl.
  - split; constructor.
  - destruct (Presets.findByPath configs p) as [i|] eqn:Hf; simpl.
    + rewrite (findByPath_known _ _ _ Hf). simpl.
      destruct (findByPath_found _ _ _ Hf) as (t & Ht & Hpt & Hfirst).
      assert (Hi : pathOf configs i = Some p).
      { unfold pathOf. now rewrite Ht, <- Hpt. }
      split; [now rewrite Hi, IHp|].
      constructor; [|exact IHf].
      intros j Hj E. rewrite Hi in E. unfold pathOf in E.
      destruct (nth_error configs j) as [c'|] eqn:Hc'; [|discriminate].
      injection E as E. exact (Hfirst j c' Hj Hc' E).
    + rewrite (findByPath_missing _ _ Hf). now split.
Qed.

Lemma linked_references_follow_extends_witness :
  exists c0,
    nth_error sample_presets 1 = Some c0
    /\ sample_linked = Presets.setExtends c0 (Presets.extends sample_linked)
    /\ map (pathOf sample_presets) (Presets.extends sample_linked)
       = map Some (filter (knownPath sample_presets)
                          (Presets.extendsList c0))
    /\ Forall (fun i => forall j, j < i ->
                        pathOf sample_presets j <> pathOf sample_presets i)
              (Presets.extends sample_linked).
Proof.
  apply (linked_references_follow_extends sample_presets 1 sample_linked).
  reflexivity.
Defined.
